(** * Apptainer: OCI rootfs unpacking and remote listing

    A shallow embedding of
    - [internal/pkg/build/sources/oci_unpack.go] ([unpackRootfs], [checkPerms]),
    - the remote listing routine [RemoteList] of package [apptainer],
    together with the properties their specification states about them.

    Go values are modelled as the code has them: [int] and [uint32] as [Z]
    with the conversions written out, strings as [string], slices as lists,
    maps as [gmap], [error] values as an inductive type with the predicates
    of packages [errors] and [os] over it.  Calls into collaborators that
    are not part of these files (the image source, umoci, the operating
    system, the logger) are fields of an environment record; every such call
    is recorded in a trace so that orderings of calls can be stated. *)

From Stdlib Require Import ZArith Lia Bool Ascii String List Permutation Sorted.
From Stdlib Require Import Structures.OrdersEx.
From stdpp Require Import gmap strings list.

Local Open Scope string_scope.
Local Open Scope Z_scope.

(* ===================================================================== *)
(** * Go strings: [strconv], [strings.Split], [%d] *)
(* ===================================================================== *)

Module GoStr.

(** The byte value of a character. *)
Definition code (c : ascii) : Z := Z.of_N (N_of_ascii c).

(** The character of a decimal digit [0 <= d < 10]. *)
Definition digit_char (d : Z) : ascii := ascii_of_N (Z.to_N (48 + d)).

(** The decimal value of a character, when it is one of '0'..'9'. *)
Definition digit_of (c : ascii) : option Z :=
  let n := code c in
  if (48 <=? n) && (n <=? 57) then Some (n - 48) else None.

(** [strconv.FormatInt]'s digit loop: digits are produced from the least
    significant one and written in front of what is already there. *)
Fixpoint utoa_aux (fuel : nat) (n : Z) (acc : string) : string :=
  match fuel with
  | O => acc
  | S fuel' =>
      let acc' := String (digit_char (n mod 10)) acc in
      if n <? 10 then acc' else utoa_aux fuel' (n / 10) acc'
  end.

Definition utoa (n : Z) : string :=
  utoa_aux (S (Z.to_nat (Z.log2 n))) n "".

(** The verb [%d] applied to an [int]. *)
Definition Itoa (z : Z) : string :=
  if z <? 0 then String "-" (utoa (- z)) else utoa z.

(** Left-to-right accumulation of decimal digits. *)
Fixpoint parse_digits (acc : Z) (s : string) : option Z :=
  match s with
  | EmptyString => Some acc
  | String c s' =>
      match digit_of c with
      | Some d => parse_digits (acc * 10 + d) s'
      | None => None
      end
  end.

Definition int_min : Z := - 2 ^ 63.
Definition int_max : Z := 2 ^ 63 - 1.

(** [strconv.Atoi] on a 64-bit platform: an optional sign, then at least
    one decimal digit and nothing else; [None] stands for the [*NumError]
    it returns otherwise (syntax or range). *)
Definition Atoi (s : string) : option Z :=
  match s with
  | EmptyString => None
  | String c s' =>
      let '(neg, body) :=
        if Ascii.eqb c "-" then (true, s')
        else if Ascii.eqb c "+" then (false, s')
        else (false, s) in
      match body with
      | EmptyString => None
      | _ =>
          match parse_digits 0 body with
          | None => None
          | Some n =>
              let v := if neg : bool then - n else n in
              if (int_min <=? v) && (v <=? int_max) then Some v else None
          end
      end
  end.

(** [strings.Split(s, sep)] for a one-byte separator. *)
Fixpoint Split (sep : ascii) (s : string) : list string :=
  match s with
  | EmptyString => [EmptyString]
  | String c s' =>
      let r := Split sep s' in
      if Ascii.eqb c sep then EmptyString :: r
      else match r with
           | h :: t => String c h :: t
           | [] => [String c EmptyString]
           end
  end.

(** A string made of decimal digits only. *)
Fixpoint all_digits (s : string) : bool :=
  match s with
  | EmptyString => true
  | String c s' => match digit_of c with Some _ => all_digits s' | None => false end
  end.

(** No character of [s] is the separator. *)
Fixpoint free_of (sep : ascii) (s : string) : bool :=
  match s with
  | EmptyString => true
  | String c s' => negb (Ascii.eqb c sep) && free_of sep s'
  end.

End GoStr.

(* ===================================================================== *)
(** * Go [error] values *)
(* ===================================================================== *)

Module Errs.

(** [syscall.Errno], the values that matter to the callers below. *)
Inductive Errno :=
| EPERM | ENOENT | EIO | EACCES | EEXIST | ENOTDIR | EISDIR | ENOSPC | EROFS | ESTALE.

Definition Errno_Error (e : Errno) : string :=
  match e with
  | EPERM => "operation not permitted"
  | ENOENT => "no such file or directory"
  | EIO => "input/output error"
  | EACCES => "permission denied"
  | EEXIST => "file exists"
  | ENOTDIR => "not a directory"
  | EISDIR => "is a directory"
  | ENOSPC => "no space left on device"
  | EROFS => "read-only file system"
  | ESTALE => "stale NFS file handle"
  end.

(** The dynamic values an [error] takes in this code.  An [*errorString]
    made by [errors.New] is identified by its pointer; the one sentinel the
    code compares against, the [errRestrictivePerm] of [checkPerms], has a
    constructor of its own, so no other error value is equal to it. *)
Inductive error :=
| errRestrictivePerm
    (* errors.New("restrictive file permission found") in checkPerms *)
| errorString (s : string)
    (* errors.New(s), fmt.Errorf without the verb %w *)
| PathError (op path : string) (errno : Errno)
    (* *fs.PathError{Op, Path, Err: errno}, what package os returns *)
| NumError (func num : string) (syntax : bool)
    (* *strconv.NumError with ErrSyntax (true) or ErrRange (false) *)
| withMessage (msg : string) (cause : error).
    (* an error wrapping [cause]: errors.Wrap(cause, msg), %w *)

Definition dquote : string := String (ascii_of_nat 34) EmptyString.

(** The method [Error()]. *)
Fixpoint Error (e : error) : string :=
  match e with
  | errRestrictivePerm => "restrictive file permission found"
  | errorString s => s
  | PathError op path errno => op ++ " " ++ path ++ ": " ++ Errno_Error errno
  | NumError func num syntax =>
      "strconv." ++ func ++ ": parsing " ++ dquote ++ num ++ dquote ++ ": "
      ++ (if syntax then "invalid syntax" else "value out of range")
  | withMessage msg cause => msg ++ ": " ++ Error cause
  end.

(** [fmt.Errorf(prefix + "%s", err)]: a new [*errorString]; the argument
    is rendered, not wrapped. *)
Definition Errorf_s (prefix : string) (err : error) : error :=
  errorString (prefix ++ Error err).

(** [errors.Is(err, errRestrictivePerm)]: the error chain of [err]
    contains the sentinel. *)
Fixpoint Is_errRestrictivePerm (err : error) : bool :=
  match err with
  | errRestrictivePerm => true
  | withMessage _ cause => Is_errRestrictivePerm cause
  | _ => false
  end.

(** [errors.Is] on [error] values that may be nil. *)
Definition errors_Is_sentinel (err : option error) : bool :=
  match err with
  | Some e => Is_errRestrictivePerm e
  | None => false
  end.

(** [os.IsPermission]: looks through [*PathError] only (not through
    [Unwrap]) and accepts EACCES and EPERM. *)
Definition os_IsPermission (err : error) : bool :=
  match err with
  | PathError _ _ EACCES | PathError _ _ EPERM => true
  | _ => false
  end.

(** [os.IsNotExist]. *)
Definition os_IsNotExist (err : error) : bool :=
  match err with
  | PathError _ _ ENOENT => true
  | _ => false
  end.

End Errs.

(* ===================================================================== *)
(** * File modes and a file system *)
(* ===================================================================== *)

Module OS.

(** [fs.FileMode] is a [uint32]: the permission bits are the low nine
    bits, [ModeDir] is the top bit. *)
Definition ModeDir : Z := Z.shiftl 1 31.
Definition ModePerm : Z := 511.  (* 0o777 *)

Definition IsDir (m : Z) : bool := negb (Z.land m ModeDir =? 0).
Definition Perm (m : Z) : Z := Z.land m ModePerm.

(** What [os.FileInfo] gives to the code here. *)
Record FileInfo := { Name : string; Mode : Z }.

(** A file system: what is found at a path. *)
Inductive node :=
| File (perm : Z) (data : list Byte.byte)
| Directory (perm : Z).

Abbreviation FS := (gmap string node).

(** The path up to, not including, its last separator.  [None]: the path
    has no separator. *)
Fixpoint dir_aux (s : string) : option string :=
  match s with
  | EmptyString => None
  | String c s' =>
      match dir_aux s' with
      | Some d => Some (String c d)
      | None => if Ascii.eqb c "/" then Some EmptyString else None
      end
  end.

(** [filepath.Dir] on a clean path. *)
Definition Dir (s : string) : string :=
  match dir_aux s with
  | None => "."
  | Some EmptyString => "/"
  | Some d => d
  end.

(** [q] is [root] or lies below it. *)
Definition within (root q : string) : bool :=
  String.eqb root q || String.prefix (root ++ "/") q.

Definition O_RDONLY : Z := 0.
Definition O_CREATE : Z := 64.   (* syscall.O_CREAT on Linux *)

(** An open file: its name and what it refers to. *)
Record file := { f_name : string; f_node : node }.

(** [os.OpenFile(name, flag, perm)] for a process that owns the entries
    and is not root, after open(2): an existing file is opened when the
    access mode is granted (here: reading); a missing one is created,
    empty and with mode [perm &^ umask], when [O_CREATE] is given and the
    parent is a directory that grants its owner write and search; a
    missing parent is ENOENT. *)
Definition OpenFile (umask : Z) (fs : FS) (name : string) (flag perm : Z)
  : FS * (Errs.error + file) :=
  match fs !! name with
  | Some (File p d) =>
      if Z.land p 256 =? 0   (* 0o400 *)
      then (fs, inl (Errs.PathError "open" name Errs.EACCES))
      else (fs, inr {| f_name := name; f_node := File p d |})
  | Some (Directory p) =>
      if Z.land p 256 =? 0
      then (fs, inl (Errs.PathError "open" name Errs.EACCES))
      else (fs, inr {| f_name := name; f_node := Directory p |})
  | None =>
      if Z.land flag O_CREATE =? 0
      then (fs, inl (Errs.PathError "open" name Errs.ENOENT))
      else
        match fs !! Dir name with
        | None => (fs, inl (Errs.PathError "open" name Errs.ENOENT))
        | Some (File _ _) => (fs, inl (Errs.PathError "open" name Errs.ENOTDIR))
        | Some (Directory p) =>
            if Z.land p 192 =? 192   (* 0o300: owner write and search *)
            then
              let n := File (Z.land perm (Z.lnot umask)) [] in
              (<[name := n]> fs, inr {| f_name := name; f_node := n |})
            else (fs, inl (Errs.PathError "open" name Errs.EACCES))
        end
  end.

End OS.

(* ===================================================================== *)
(** * OCI image-spec and runtime-spec values *)
(* ===================================================================== *)

Module Imgspec.

Definition MediaTypeImageManifest : string := "application/vnd.oci.image.manifest.v1+json".
Definition MediaTypeImageConfig : string := "application/vnd.oci.image.config.v1+json".

(** [imgspecv1.Descriptor]: the media type and the fields this code
    never looks at. *)
Record Descriptor := {
  MediaType : string;
  Digest : string;
  Size : Z;
  URLs : list string;
  Annotations : list (string * string)
}.

(** [imgspecv1.Manifest]. *)
Record Manifest := {
  SchemaVersion : Z;
  Config : Descriptor;
  Layers : list Descriptor;
  ManifestAnnotations : list (string * string)
}.

(** The zero values ([var manifest imgspecv1.Manifest]). *)
Definition zeroDescriptor : Descriptor :=
  {| MediaType := ""; Digest := ""; Size := 0; URLs := []; Annotations := [] |}.
Definition zeroManifest : Manifest :=
  {| SchemaVersion := 0; Config := zeroDescriptor; Layers := [];
     ManifestAnnotations := [] |}.

(** [d.MediaType = mt]. *)
Definition setMediaType (mt : string) (d : Descriptor) : Descriptor :=
  {| MediaType := mt; Digest := Digest d; Size := Size d; URLs := URLs d;
     Annotations := Annotations d |}.

(** [manifest.Config.MediaType = mt]. *)
Definition setConfigMediaType (mt : string) (m : Manifest) : Manifest :=
  {| SchemaVersion := SchemaVersion m; Config := setMediaType mt (Config m);
     Layers := Layers m; ManifestAnnotations := ManifestAnnotations m |}.

(** [manifest.Layers = ls]. *)
Definition setLayers (ls : list Descriptor) (m : Manifest) : Manifest :=
  {| SchemaVersion := SchemaVersion m; Config := Config m;
     Layers := ls; ManifestAnnotations := ManifestAnnotations m |}.

End Imgspec.

Module Rspec.

(** [rspec.LinuxIDMapping]; the three fields are [uint32]. *)
Record LinuxIDMapping := { ContainerID : Z; HostID : Z; Size : Z }.

Definition uint32 (z : Z) : Z := z mod 2 ^ 32.

End Rspec.

Module Idtools.

Import Errs.

(** [strconv.Atoi] with its error value. *)
Definition Atoi (s : string) : error + Z :=
  match GoStr.Atoi s with
  | Some z => inr z
  | None =>
      inl (NumError "Atoi" s
             (match s with
              | EmptyString => true
              | String c s' =>
                  let body := if Ascii.eqb c "-" || Ascii.eqb c "+" then s' else s in
                  match body with
                  | EmptyString => true
                  | _ => negb (GoStr.all_digits body)
                  end
              end))
  end.

(** [idtools.ParseMapping] of the umoci library, which [unpackRootfs]
    calls on the string it formats: "container:host[:size]", the size
    defaulting to 1; the fields are parsed with [strconv.Atoi] in the
    order size, container, host and converted to [uint32]; a string with
    another number of fields, or a field that is not a number, is an
    error. *)
Definition ParseMapping (spec : string) : error + Rspec.LinuxIDMapping :=
  let parts := GoStr.Split ":" spec in
  let finish (c h : string) (size : Z) : error + Rspec.LinuxIDMapping :=
    match Atoi c with
    | inl err => inl (withMessage "invalid containerID in mapping" err)
    | inr contID =>
        match Atoi h with
        | inl err => inl (withMessage "invalid hostID in mapping" err)
        | inr hostID =>
            inr {| Rspec.ContainerID := Rspec.uint32 contID;
                   Rspec.HostID := Rspec.uint32 hostID;
                   Rspec.Size := Rspec.uint32 size |}
        end
    end in
  match parts with
  | [c; h; s] =>
      match Atoi s with
      | inl err => inl (withMessage "invalid size in mapping" err)
      | inr size => finish c h size
      end
  | [c; h] => finish c h 1
  | _ =>
      inl (errorString ("invalid number of fields in mapping '" ++ spec ++ "': "
                        ++ GoStr.Itoa (Z.of_nat (length parts))))
  end.

End Idtools.

(* ===================================================================== *)
(** * Package [sources]: [unpackRootfs] and [checkPerms] *)
(* ===================================================================== *)

Module Sources.

Import Errs.
Import Imgspec.

(** [sytypes.Bundle] and its options, as far as this file reads them. *)
Record Options := { FixPerms : bool; SandboxTarget : bool }.
Record Bundle := { TmpDir : string; RootfsPath : string; Opts : Options }.

(** [umocilayer.MapOptions] and [umocilayer.UnpackOptions]. *)
Record MapOptions := {
  UIDMappings : list Rspec.LinuxIDMapping;
  GIDMappings : list Rspec.LinuxIDMapping;
  Rootless : bool
}.
Record UnpackOptions := { UnpackMapOptions : MapOptions }.

Definition zeroMapOptions : MapOptions :=
  {| UIDMappings := []; GIDMappings := []; Rootless := false |}.

(** The image source behind [tmpfsRef]: what [GetManifest(ctx, nil)]
    answers, and what [NewImageSource(ctx, sysCtx)] answers. *)
Record ImageSource := {
  GetManifest : error + (list Byte.byte * string)
}.
Record ImageReference := {
  NewImageSource : error + ImageSource
}.

(** The handle [umoci.OpenLayout] returns. *)
Record Engine := { layoutPath : string }.

Inductive apexLevel :=
| apex_DebugLevel | apex_InfoLevel | apex_WarnLevel | apex_ErrorLevel | apex_FatalLevel.

(** One call of the walk function: [walkFn(path, f, nil)] for an entry
    that could be examined, [walkFn(path, f, err)] with [err != nil] for
    one that could not. *)
Inductive entry :=
| Accessible (path : string) (f : OS.FileInfo)
| Failed (path : string) (f : option OS.FileInfo) (err : error).

(** The calls that leave this file, in the order they are made. *)
Inductive event :=
| sylog_Debugf (format : string) (args : list string)
| sylog_Warningf (format : string) (args : list string)
| apexlog_SetLevel (l : apexLevel)
| call_OpenLayout (dir : string)
| call_NewImageSource
| call_GetManifest
| call_Unmarshal (data : list Byte.byte)
| call_RemoveAll (path : string)
| call_UnpackRootfs (found : OS.FS) (engine : Engine) (rootfs : string)
    (m : Manifest) (o : UnpackOptions)
    (* [found]: the file system the capability is applied to *)
| call_FixPerms (path : string)
| call_PermWalkRaiseError (root : string).

(** The collaborators: process state, the logger's level, umoci, the
    operating system, [encoding/json], and the helpers of this repository
    that live in other packages. *)
Record Env := {
  sylog_GetLevel : Z;
  sylog_ErrorLevel : Z;
  sylog_LogLevel : Z;
  sylog_DebugLevel : Z;
  namespaces_IsUnprivileged : bool;
  os_Geteuid : Z;
  os_Getegid : Z;
  umoci_OpenLayout : string -> error + Engine;
  (* json.Unmarshal(data, &manifest): the target afterwards and the error *)
  json_Unmarshal : list Byte.byte -> Manifest -> Manifest * option error;
  os_RemoveAll : OS.FS -> string -> OS.FS * option error;
  umocilayer_UnpackRootfs :
    OS.FS -> Engine -> string -> Manifest -> UnpackOptions -> OS.FS * option error;
  sytypes_FixPerms : OS.FS -> string -> OS.FS * option error;
  (* what a walk of the tree below a root meets, in the order of the walk *)
  fs_entries : OS.FS -> string -> list entry
}.

(** ** State passing *)

Record state := { files : OS.FS; trace : list event }.

Definition M (A : Type) : Type := state -> A * state.

Definition ret {A} (a : A) : M A := fun s => (a, s).
Definition bind {A B} (m : M A) (k : A -> M B) : M B :=
  fun s => let '(a, s') := m s in k a s'.
Definition emit (e : event) : M unit :=
  fun s => (tt, {| files := files s; trace := trace s ++ [e] |}).
Definition get_files : M OS.FS := fun s => (files s, s).
(** A capability that works on the file system. *)
Definition on_files {A} (f : OS.FS -> OS.FS * A) : M A :=
  fun s => let '(fs', a) := f (files s) in (a, {| files := fs'; trace := trace s |}).

Notation "x <- m ;; k" := (bind m (fun x => k))
  (at level 100, m at next level, right associativity).
Notation "m ;;; k" := (bind m (fun _ => k))
  (at level 100, right associativity).
(** [x, err := c; if err != nil { return h(err) }; k]. *)
Notation "'try' x <~ c 'orReturn' h ;; k" :=
  (bind c (fun r => match r with
                    | inl err => ret (Some (h err))
                    | inr x => k
                    end))
  (at level 100, x name, c at level 9, h at level 9, right associativity).

(** ** The manifest's media types (lines 93-102) *)

Definition dockerLayerGzip : string := "application/vnd.docker.image.rootfs.diff.tar.gzip".
Definition dockerLayerTar : string := "application/vnd.docker.image.rootfs.diff.tar".
Definition ociLayerGzip : string := "application/vnd.oci.image.layer.v1.tar+gzip".
Definition ociLayerTar : string := "application/vnd.oci.image.layer.v1.tar".

(** The body of the loop at index [idx]: [layerDescriptor] is the element
    the [range] clause reads there, the assignments go to
    [manifest.Layers[idx].MediaType]. *)
Definition normalizeStep (layers : list Descriptor) (idx : nat) : list Descriptor :=
  match layers !! idx with
  | None => layers
  | Some layerDescriptor =>
      let mediaType := MediaType layerDescriptor in
      if String.eqb mediaType dockerLayerGzip then
        alter (setMediaType ociLayerGzip) idx layers
      else if String.eqb mediaType dockerLayerTar then
        alter (setMediaType ociLayerTar) idx layers
      else layers
  end.

(** [for idx, layerDescriptor := range manifest.Layers { switch ... }]. *)
Definition normalizeLayers (layers : list Descriptor) : list Descriptor :=
  foldl normalizeStep layers (seq 0 (length layers)).

(** Lines 93-102: the config media type is forced, then the layers are
    rewritten in place. *)
Definition normalize (manifest : Manifest) : Manifest :=
  let manifest := setConfigMediaType MediaTypeImageConfig manifest in
  setLayers (normalizeLayers (Layers manifest)) manifest.

(** What the loop does to one descriptor. *)
Definition normalizeLayer (d : Descriptor) : Descriptor :=
  if String.eqb (MediaType d) dockerLayerGzip then setMediaType ociLayerGzip d
  else if String.eqb (MediaType d) dockerLayerTar then setMediaType ociLayerTar d
  else d.

Section WithEnv.

Variable env : Env.

(** ** [checkPerms] (lines 137-170) *)

(** The function literal passed to [fs.PermWalkRaiseError]. *)
Definition walkFn (e : entry) : M (option error) :=
  match e with
  | Failed path _ err =>
      if os_IsPermission err then
        emit (sylog_Debugf "Path %q has restrictive permissions" [path]) ;;;
        ret (Some errRestrictivePerm)
      else
        ret (Some (errorString
                     ("unable to access rootfs path " ++ path ++ ": " ++ Error err)))
  | Accessible path f =>
      if OS.IsDir (OS.Mode f) && negb (Z.land (OS.Perm (OS.Mode f)) 448 =? 448) then
        emit (sylog_Debugf "Path %q has restrictive permissions" [path]) ;;;
        ret (Some errRestrictivePerm)
      else ret None
  end.

(** Modelled from the spec: [fs.PermWalkRaiseError] of
    [internal/pkg/util/fs], which is not among the sources.  The spec's
    "filesystem walker primitive: visits every entry under a root, invoking
    a caller-supplied per-entry evaluator that may itself signal early
    termination": the evaluator is called on the entries in turn, and the
    first error it returns ends the walk and is the walk's result. *)
Fixpoint walkEntries (entries : list entry) (fn : entry -> M (option error))
  : M (option error) :=
  match entries with
  | [] => ret None
  | e :: rest =>
      r <- fn e ;;
      match r with
      | Some err => ret (Some err)
      | None => walkEntries rest fn
      end
  end.

Definition PermWalkRaiseError (root : string) (fn : entry -> M (option error))
  : M (option error) :=
  emit (call_PermWalkRaiseError root) ;;;
  fs <- get_files ;;
  walkEntries (fs_entries env fs root) fn.

Definition checkPerms (rootfs : string) : M (option error) :=
  err <- PermWalkRaiseError rootfs walkFn ;;
  if errors_Is_sentinel err then
    emit (sylog_Warningf "The sandbox contain files/dirs that cannot be removed with 'rm'." []) ;;;
    emit (sylog_Warningf "Use 'chmod -R u+rwX' to set permissions that allow removal." []) ;;;
    emit (sylog_Warningf "Use the '--fix-perms' option to 'apptainer build' to modify permissions at build time." []) ;;;
    ret None
  else ret err.

(** ** [unpackRootfs] (lines 36-132) *)

(** Lines 39-54. *)
Definition setApexLevel : M unit :=
  let loggerLevel := sylog_GetLevel env in
  if loggerLevel <=? sylog_ErrorLevel env then emit (apexlog_SetLevel apex_ErrorLevel)
  else if loggerLevel <=? sylog_LogLevel env then emit (apexlog_SetLevel apex_WarnLevel)
  else if loggerLevel <? sylog_DebugLevel env then emit (apexlog_SetLevel apex_InfoLevel)
  else emit (apexlog_SetLevel apex_DebugLevel).

(** [fmt.Sprintf("0:%d:1", id)]. *)
Definition mappingSpec (id : Z) : string := "0:" ++ GoStr.Itoa id ++ ":1".

(** Lines 56-72: the value of [mapOptions] after the block, or the error
    the function returns from inside it. *)
Definition resolveMapOptions : M (error + MapOptions) :=
  let mapOptions := zeroMapOptions in
  if namespaces_IsUnprivileged env then
    emit (sylog_Debugf "setting umoci rootless mode" []) ;;;
    let mapOptions :=
      {| UIDMappings := UIDMappings mapOptions; GIDMappings := GIDMappings mapOptions;
         Rootless := true |} in
    match Idtools.ParseMapping (mappingSpec (os_Geteuid env)) with
    | inl err => ret (inl (Errorf_s "error parsing uidmap: " err))
    | inr uidMap =>
        let mapOptions :=
          {| UIDMappings := UIDMappings mapOptions ++ [uidMap];
             GIDMappings := GIDMappings mapOptions; Rootless := Rootless mapOptions |} in
        match Idtools.ParseMapping (mappingSpec (os_Getegid env)) with
        | inl err => ret (inl (Errorf_s "error parsing gidmap: " err))
        | inr gidMap =>
            ret (inr {| UIDMappings := UIDMappings mapOptions;
                        GIDMappings := GIDMappings mapOptions ++ [gidMap];
                        Rootless := Rootless mapOptions |})
        end
    end
  else ret (inr mapOptions).

(** Lines 114-131, reached with [err == nil]. *)
Definition postProcess (b : Bundle) : M (option error) :=
  if FixPerms (Opts b) then
    emit (sylog_Warningf "The --fix-perms option modifies the filesystem permissions on the resulting container." []) ;;;
    emit (sylog_Debugf "Modifying permissions for file/directory owners" []) ;;;
    emit (call_FixPerms (RootfsPath b)) ;;;
    on_files (fun fs => sytypes_FixPerms env fs (RootfsPath b))
  else if SandboxTarget (Opts b) then
    emit (sylog_Debugf "Scanning for restrictive permissions" []) ;;;
    checkPerms (RootfsPath b)
  else ret None.

Definition unpackRootfs (b : Bundle) (tmpfsRef : ImageReference) : M (option error) :=
  setApexLevel ;;;
  try mapOptions <~ resolveMapOptions orReturn (fun err => err) ;;
  try engineExt <~ (emit (call_OpenLayout (TmpDir b)) ;;; ret (umoci_OpenLayout env (TmpDir b)))
    orReturn (Errorf_s "error opening layout: ") ;;
  try imageSource <~ (emit call_NewImageSource ;;; ret (NewImageSource tmpfsRef))
    orReturn (Errorf_s "error creating image source: ") ;;
  try got <~ (emit call_GetManifest ;;; ret (GetManifest imageSource))
    orReturn (Errorf_s "error obtaining manifest source: ") ;;
  let '(manifestData, mediaType) := got in
  if negb (String.eqb mediaType MediaTypeImageManifest) then
    ret (Some (errorString ("error verifying manifest media type: " ++ mediaType)))
  else
    emit (call_Unmarshal manifestData) ;;;
    (* the error of json.Unmarshal is not looked at *)
    let manifest := fst (json_Unmarshal env manifestData zeroManifest) in
    let manifest := normalize manifest in
    emit (call_RemoveAll (RootfsPath b)) ;;;
    (* nor is the error of os.RemoveAll *)
    on_files (fun fs => (fst (os_RemoveAll env fs (RootfsPath b)), tt)) ;;;
    let unpackOptions := {| UnpackMapOptions := mapOptions |} in
    found <- get_files ;;
    emit (call_UnpackRootfs found engineExt (RootfsPath b) manifest unpackOptions) ;;;
    err <- on_files (fun fs =>
             umocilayer_UnpackRootfs env fs engineExt (RootfsPath b) manifest unpackOptions) ;;
    match err with
    | Some err => ret (Some (Errorf_s "error unpacking rootfs: " err))
    | None => postProcess b
    end.

End WithEnv.

(** A run from a file system, with an empty trace. *)
Definition start (fs : OS.FS) : state := {| files := fs; trace := [] |}.

Definition run {A} (m : M A) (fs : OS.FS) : A * state := m (start fs).

(** ** Observations on runs *)

(** A state with further events at the end of its trace. *)
Definition extend (s : state) (evs : list event) : state :=
  {| files := files s; trace := trace s ++ evs |}.

Definition is_warning (e : event) : bool :=
  match e with sylog_Warningf _ _ => true | _ => false end.

Definition is_walk (e : event) : bool :=
  match e with call_PermWalkRaiseError _ => true | _ => false end.

Definition is_fixperms (e : event) : bool :=
  match e with call_FixPerms _ => true | _ => false end.

Definition is_unpack (e : event) : bool :=
  match e with call_UnpackRootfs _ _ _ _ _ => true | _ => false end.

(** The calls of the extraction step and after: removal of the target,
    the unpack capability, the permission fix and the scanner's walk. *)
Definition is_extraction (e : event) : bool :=
  match e with
  | call_RemoveAll _ | call_UnpackRootfs _ _ _ _ _
  | call_FixPerms _ | call_PermWalkRaiseError _ => true
  | _ => false
  end.

(** A trace without any of them. *)
Definition quiet (evs : list event) : Prop :=
  Forall (fun ev => is_extraction ev = false) evs.

(** The three warnings of [checkPerms]. *)
Definition advisory : list event :=
  [ sylog_Warningf "The sandbox contain files/dirs that cannot be removed with 'rm'." [];
    sylog_Warningf "Use 'chmod -R u+rwX' to set permissions that allow removal." [];
    sylog_Warningf "Use the '--fix-perms' option to 'apptainer build' to modify permissions at build time." [] ].

(** What the walk function returns for an entry, and what it logs. *)
Definition verdict (e : entry) : option error := fst (walkFn e (start ∅)).
Definition notes (e : entry) : list event := trace (snd (walkFn e (start ∅))).

(** The result of a walk over entries: the first error returned. *)
Fixpoint walkVerdict (entries : list entry) : option error :=
  match entries with
  | [] => None
  | e :: rest =>
      match verdict e with
      | Some err => Some err
      | None => walkVerdict rest
      end
  end.

(** What a walk over entries logs: the notes up to the first error. *)
Fixpoint walkNotes (entries : list entry) : list event :=
  match entries with
  | [] => []
  | e :: rest =>
      match verdict e with
      | Some _ => notes e
      | None => notes e ++ walkNotes rest
      end
  end.

(** What [checkPerms] adds to the trace, from the file system it walks. *)
Definition checkPermsEvents (env : Env) (rootfs : string) (fs : OS.FS) : list event :=
  let entries := fs_entries env fs rootfs in
  call_PermWalkRaiseError rootfs :: walkNotes entries
  ++ (if errors_Is_sentinel (walkVerdict entries) then advisory else []).

(** What the post-processing step adds to the trace. *)
Definition postEvents (env : Env) (b : Bundle) (fs : OS.FS) : list event :=
  if FixPerms (Opts b) then
    [ sylog_Warningf "The --fix-perms option modifies the filesystem permissions on the resulting container." [];
      sylog_Debugf "Modifying permissions for file/directory owners" [];
      call_FixPerms (RootfsPath b) ]
  else if SandboxTarget (Opts b) then
    sylog_Debugf "Scanning for restrictive permissions" []
    :: checkPermsEvents env (RootfsPath b) fs
  else [].

(** In a run, whenever the unpack capability is called, the file system
    it is applied to has nothing at or below the bundle's rootfs path. *)
Definition target_absent_at_unpack (env : Env) (b : Bundle)
  (tmpfsRef : ImageReference) (fs : OS.FS) : Prop :=
  forall found eng rootfs m o,
    In (call_UnpackRootfs found eng rootfs m o)
       (trace (snd (run (unpackRootfs env b tmpfsRef) fs))) ->
    forall q, OS.within (RootfsPath b) q = true -> found !! q = None.

(** What [os.RemoveAll] promises when it returns nil: the path and
    everything below it are gone. *)
Definition removeAll_contract (env : Env) : Prop :=
  forall fs p,
    snd (os_RemoveAll env fs p) = None ->
    forall q, OS.within p q = true -> fst (os_RemoveAll env fs p) !! q = None.

(** The same collaborators, with a decoder that fills the target as
    before but never reports an error. *)
Definition withSilentDecoder (env : Env) : Env :=
  {| sylog_GetLevel := sylog_GetLevel env;
     sylog_ErrorLevel := sylog_ErrorLevel env;
     sylog_LogLevel := sylog_LogLevel env;
     sylog_DebugLevel := sylog_DebugLevel env;
     namespaces_IsUnprivileged := namespaces_IsUnprivileged env;
     os_Geteuid := os_Geteuid env;
     os_Getegid := os_Getegid env;
     umoci_OpenLayout := umoci_OpenLayout env;
     json_Unmarshal := fun data target => (fst (json_Unmarshal env data target), None);
     os_RemoveAll := os_RemoveAll env;
     umocilayer_UnpackRootfs := umocilayer_UnpackRootfs env;
     sytypes_FixPerms := sytypes_FixPerms env;
     fs_entries := fs_entries env |}.

(** The value of [mapOptions] the specification gives for a process. *)
Definition expectedMapOptions (unprivileged : bool) (euid egid : Z) : MapOptions :=
  if unprivileged then
    {| UIDMappings :=
         [ {| Rspec.ContainerID := 0; Rspec.HostID := euid; Rspec.Size := 1 |} ];
       GIDMappings :=
         [ {| Rspec.ContainerID := 0; Rspec.HostID := egid; Rspec.Size := 1 |} ];
       Rootless := true |}
  else {| UIDMappings := []; GIDMappings := []; Rootless := false |}.

End Sources.

(* ===================================================================== *)
(** * Package [apptainer]: [RemoteList] *)
(* ===================================================================== *)

Module Apptainer.

Import Errs.

(** [endpoint.Config] and [remote.Config], the fields [RemoteList] reads. *)
Record EndpointConfig := {
  URI : string;
  System : bool;
  Exclusive : bool;
  Insecure : bool
}.
Record Config := {
  DefaultRemote : string;
  Remotes : gmap string EndpointConfig
}.

Definition zeroEndpoint : EndpointConfig :=
  {| URI := ""; System := false; Exclusive := false; Insecure := false |}.

(** [c.Remotes[n]] followed by a field access; [n] is always a key where
    the code does this. *)
Definition remoteOf (c : Config) (n : string) : EndpointConfig :=
  default zeroEndpoint (Remotes c !! n).

(** [a < b] on Go strings: bytewise lexicographic. *)
Definition str_lt (a b : string) : bool :=
  match String_as_OT.compare a b with Lt => true | _ => false end.

(** What is written to standard output. *)
Inductive output :=
| Println (line : string)
| Fprintf_tw (cells : list string)   (* fmt.Fprintf(tw, listLine, cells...) *)
| tw_Flush.

(** The collaborators: the process's umask, [remote.ReadFrom] and
    [syncSysConfig] (of this repository, in other files), the order in
    which a [range] over a map yields its keys, and package [sort]. *)
Record Env := {
  umask : Z;
  remote_ReadFrom : OS.file -> error + Config;
  (* syncSysConfig(c): what c points to afterwards, and the error *)
  syncSysConfig : Config -> Config * option error;
  rangeKeys : gmap string EndpointConfig -> list string;
  sort_Slice : (string -> string -> bool) -> list string -> list string;
  sort_Strings : list string -> list string
}.

(** The function literal given to [sort.Slice], on the two names it
    reads from the slice. *)
Definition less (c : Config) (iName jName : string) : bool :=
  if System (remoteOf c iName) && negb (System (remoteOf c jName)) then true
  else if negb (System (remoteOf c iName)) && System (remoteOf c jName) then false
  else str_lt iName jName.

Definition yesNo (b : bool) : string := if b then "YES" else "NO".

(** The body of the printing loop for the name [n]. *)
Definition row (c : Config) (n : string) : output :=
  let sys := yesNo (System (remoteOf c n)) in
  let excl := yesNo (Exclusive (remoteOf c n)) in
  let insec := yesNo (Insecure (remoteOf c n)) in
  let active :=
    yesNo (negb (String.eqb (DefaultRemote c) "") && String.eqb (DefaultRemote c) n) in
  Fprintf_tw [n; URI (remoteOf c n); active; sys; excl; insec].

(** Lines 66-92, for the names in their final order. *)
Definition printListing (c : Config) (names : list string) : list output :=
  [Println "Cloud Services Endpoints"; Println "========================"; Println ""]
  ++ [Fprintf_tw ["NAME"; "URI"; "ACTIVE"; "GLOBAL"; "EXCLUSIVE"; "INSECURE"]]
  ++ map (row c) names
  ++ [tw_Flush].

(** Lines 48-64: the names as they are after both sorts. *)
Definition sortedNames (env : Env) (c : Config) : list string :=
  let names := rangeKeys env (Remotes c) in
  let names := sort_Slice env (less c) names in
  sort_Strings env names.

(** [RemoteList]: the error returned, the file system and the output
    afterwards. *)
Definition RemoteList (env : Env) (fs : OS.FS) (usrConfigFile : string)
  : option error * OS.FS * list output :=
  match OS.OpenFile (umask env) fs usrConfigFile (Z.lor OS.O_RDONLY OS.O_CREATE) 384 with
  | (fs, inl err) =>
      if os_IsNotExist err then
        (Some (errorString "no remote configurations"), fs, [])
      else
        (Some (Errorf_s "while opening remote config file: " err), fs, [])
  | (fs, inr file) =>
      match remote_ReadFrom env file with
      | inl err => (Some (Errorf_s "while parsing remote config data: " err), fs, [])
      | inr c =>
          match syncSysConfig env c with
          | (_, Some err) => (Some err, fs, [])
          | (c, None) => (None, fs, printListing c (sortedNames env c))
          end
      end
  end.

(** The listing the specification's note compares with: one alphabetical
    sort of the names, by insertion. *)
Fixpoint insertSorted (lt : string -> string -> bool) (x : string) (l : list string)
  : list string :=
  match l with
  | [] => [x]
  | y :: l' => if lt x y then x :: l else y :: insertSorted lt x l'
  end.

Definition insertionSort (lt : string -> string -> bool) (l : list string) : list string :=
  foldr (insertSorted lt) [] l.

Definition alphabetical (names : list string) : list string :=
  insertionSort str_lt names.

(** [a] may stand before [b] in increasing order: [b < a] is false. *)
Definition ordered (a b : string) : Prop := str_lt b a = false.

(** The same collaborators, with a [sort.Slice] that leaves the slice as
    it is: [RemoteList] without its first sort. *)
Definition withoutFirstSort (env : Env) : Env :=
  {| umask := umask env;
     remote_ReadFrom := remote_ReadFrom env;
     syncSysConfig := syncSysConfig env;
     rangeKeys := rangeKeys env;
     sort_Slice := fun _ names => names;
     sort_Strings := sort_Strings env |}.

(** A configuration without remotes, as read from an empty file. *)
Definition emptyConfig : Config := {| DefaultRemote := ""; Remotes := ∅ |}.

(** The keys of the map of remotes. *)
Definition remoteNames (c : Config) : list string := (map_to_list (Remotes c)).*1.

End Apptainer.

(* ===================================================================== *)
(** * Concrete environments *)
(* ===================================================================== *)

Module Demo.

Import Errs.

Definition bytes (s : string) : list Byte.byte := list_byte_of_string s.

(** A file system with an earlier sandbox at [/build/rootfs]. *)
Definition populated : OS.FS :=
  <["/build" := OS.Directory 493]>
  (<["/build/rootfs" := OS.Directory 493]>
  (<["/build/rootfs/etc" := OS.Directory 320]>
  (<["/build/rootfs/etc/keep" := OS.File 420 (bytes "old")]> ∅))).

(** [os.RemoveAll] when nothing stands in its way: the path and all
    below it are gone, the result is nil. *)
Definition removeAll_ok (fs : OS.FS) (path : string) : OS.FS * option error :=
  (filter (fun kv => OS.within path kv.1 = false) fs, None).

(** [os.RemoveAll] stopped at a directory it may not modify: nothing is
    removed, the first error is returned. *)
Definition removeAll_denied (fs : OS.FS) (path : string) : OS.FS * option error :=
  (fs, Some (PathError "unlinkat" (path ++ "/etc/keep") EACCES)).

(** An unpack capability that puts one file below the target. *)
Definition unpack_one (fs : OS.FS) (e : Sources.Engine) (rootfs : string)
  (m : Imgspec.Manifest) (o : Sources.UnpackOptions) : OS.FS * option error :=
  (<[rootfs := OS.Directory 493]> (<[rootfs ++ "/bin" := OS.Directory 493]> fs), None).

(** A JSON decoder that accepts one document and calls everything else a
    syntax error, leaving the target as it is. *)
Definition goodManifest : Imgspec.Manifest :=
  {| Imgspec.SchemaVersion := 2;
     Imgspec.Config :=
       {| Imgspec.MediaType := "application/vnd.docker.container.image.v1+json";
          Imgspec.Digest := "sha256:c0"; Imgspec.Size := 7; Imgspec.URLs := [];
          Imgspec.Annotations := [] |};
     Imgspec.Layers :=
       [ {| Imgspec.MediaType := Sources.dockerLayerGzip;
            Imgspec.Digest := "sha256:11"; Imgspec.Size := 10; Imgspec.URLs := [];
            Imgspec.Annotations := [] |};
         {| Imgspec.MediaType := Sources.dockerLayerTar;
            Imgspec.Digest := "sha256:22"; Imgspec.Size := 20; Imgspec.URLs := [];
            Imgspec.Annotations := [("k", "v")] |};
         {| Imgspec.MediaType := "application/vnd.oci.image.layer.v1.tar+zstd";
            Imgspec.Digest := "sha256:33"; Imgspec.Size := 30; Imgspec.URLs := ["u"];
            Imgspec.Annotations := [] |} ];
     Imgspec.ManifestAnnotations := [] |}.

Definition unmarshal (data : list Byte.byte) (target : Imgspec.Manifest)
  : Imgspec.Manifest * option error :=
  if String.eqb (string_of_list_byte data) "{good}" then (goodManifest, None)
  else (target, Some (errorString "unexpected end of JSON input")).

(** A tree walk that meets the root, a directory without owner write,
    and a file. *)
Definition entriesOf (fs : OS.FS) (root : string) : list Sources.entry :=
  [ Sources.Accessible root {| OS.Name := "rootfs"; OS.Mode := Z.lor OS.ModeDir 493 |};
    Sources.Accessible (root ++ "/etc") {| OS.Name := "etc"; OS.Mode := Z.lor OS.ModeDir 320 |};
    Sources.Accessible (root ++ "/etc/keep") {| OS.Name := "keep"; OS.Mode := 420 |} ].

Definition env (unprivileged : bool)
  (removeAll : OS.FS -> string -> OS.FS * option error) : Sources.Env :=
  {| Sources.sylog_GetLevel := 1;
     Sources.sylog_ErrorLevel := -3;
     Sources.sylog_LogLevel := -1;
     Sources.sylog_DebugLevel := 5;
     Sources.namespaces_IsUnprivileged := unprivileged;
     Sources.os_Geteuid := 1000;
     Sources.os_Getegid := 100;
     Sources.umoci_OpenLayout := fun dir => inr {| Sources.layoutPath := dir |};
     Sources.json_Unmarshal := unmarshal;
     Sources.os_RemoveAll := removeAll;
     Sources.umocilayer_UnpackRootfs := unpack_one;
     Sources.sytypes_FixPerms := fun fs _ => (fs, None);
     Sources.fs_entries := entriesOf |}.

Definition bundle (fixPerms sandbox : bool) : Sources.Bundle :=
  {| Sources.TmpDir := "/build/oci"; Sources.RootfsPath := "/build/rootfs";
     Sources.Opts := {| Sources.FixPerms := fixPerms; Sources.SandboxTarget := sandbox |} |}.

(** An image reference whose source answers with the given manifest
    bytes and media type. *)
Definition ref (data : string) (mediaType : string) : Sources.ImageReference :=
  {| Sources.NewImageSource :=
       inr {| Sources.GetManifest := inr (bytes data, mediaType) |} |}.

(** Remote configurations: one system remote, two of the user. *)
Definition remotes : gmap string Apptainer.EndpointConfig :=
  <["zeta" := {| Apptainer.URI := "z.example.org"; Apptainer.System := true;
                 Apptainer.Exclusive := false; Apptainer.Insecure := false |}]>
  (<["alpha" := {| Apptainer.URI := "a.example.org"; Apptainer.System := false;
                  Apptainer.Exclusive := false; Apptainer.Insecure := true |}]>
  (<["beta" := {| Apptainer.URI := "b.example.org"; Apptainer.System := false;
                 Apptainer.Exclusive := false; Apptainer.Insecure := false |}]> ∅)).

Definition config : Apptainer.Config :=
  {| Apptainer.DefaultRemote := "beta"; Apptainer.Remotes := remotes |}.

(** An environment for [RemoteList]: the configuration file is empty or
    holds [config]; there is no system configuration to merge. *)
Definition listEnv : Apptainer.Env :=
  {| Apptainer.umask := 18;
     Apptainer.remote_ReadFrom := fun f =>
       match OS.f_node f with
       | OS.File _ [] => inr Apptainer.emptyConfig
       | OS.File _ _ => inr config
       | OS.Directory _ => inl (PathError "read" (OS.f_name f) EISDIR)
       end;
     Apptainer.syncSysConfig := fun c => (c, None);
     Apptainer.rangeKeys := fun m => (map_to_list m).*1;
     Apptainer.sort_Slice := Apptainer.insertionSort;
     Apptainer.sort_Strings := Apptainer.insertionSort Apptainer.str_lt |}.

Definition home : OS.FS :=
  <["/home/u/.apptainer" := OS.Directory 448]> ∅.

End Demo.

(* ===================================================================== *)
(** * Further observations and scenarios *)
(* ===================================================================== *)

Module Views.

Import Errs Imgspec Sources.

(** How much an apex level lets through. *)
Definition verbosity (l : apexLevel) : nat :=
  match l with
  | apex_FatalLevel => 0
  | apex_ErrorLevel => 1
  | apex_WarnLevel => 2
  | apex_InfoLevel => 3
  | apex_DebugLevel => 4
  end.

(** The same collaborators with another level of the logger. *)
Definition withLevel (env : Env) (level : Z) : Env :=
  {| sylog_GetLevel := level;
     sylog_ErrorLevel := sylog_ErrorLevel env;
     sylog_LogLevel := sylog_LogLevel env;
     sylog_DebugLevel := sylog_DebugLevel env;
     namespaces_IsUnprivileged := namespaces_IsUnprivileged env;
     os_Geteuid := os_Geteuid env;
     os_Getegid := os_Getegid env;
     umoci_OpenLayout := umoci_OpenLayout env;
     json_Unmarshal := json_Unmarshal env;
     os_RemoveAll := os_RemoveAll env;
     umocilayer_UnpackRootfs := umocilayer_UnpackRootfs env;
     sytypes_FixPerms := sytypes_FixPerms env;
     fs_entries := fs_entries env |}.

(** The levels given to [apexlog.SetLevel] in a trace, in order. *)
Fixpoint levelsSet (evs : list event) : list apexLevel :=
  match evs with
  | [] => []
  | apexlog_SetLevel l :: rest => l :: levelsSet rest
  | _ :: rest => levelsSet rest
  end.

Definition is_removeAll (e : event) : bool :=
  match e with call_RemoveAll _ => true | _ => false end.

Definition is_debug (e : event) : bool :=
  match e with sylog_Debugf _ _ => true | _ => false end.

(** The manifests given to the unpack capability in a trace. *)
Fixpoint manifestsUnpacked (evs : list event) : list Manifest :=
  match evs with
  | [] => []
  | call_UnpackRootfs _ _ _ m _ :: rest => m :: manifestsUnpacked rest
  | _ :: rest => manifestsUnpacked rest
  end.

(** A layer descriptor with one of the two Docker layer media types. *)
Definition is_docker (d : Descriptor) : bool :=
  String.eqb (MediaType d) dockerLayerGzip || String.eqb (MediaType d) dockerLayerTar.

(** What the post-processing step may add to a trace: log messages, the
    permission fix, the scanner's walk. *)
Definition is_post (e : event) : bool :=
  match e with
  | sylog_Debugf _ _ | sylog_Warningf _ _
  | call_FixPerms _ | call_PermWalkRaiseError _ => true
  | _ => false
  end.

(** The level lines 39-54 choose. *)
Definition apexLevelOf (env : Env) : apexLevel :=
  if sylog_GetLevel env <=? sylog_ErrorLevel env then apex_ErrorLevel
  else if sylog_GetLevel env <=? sylog_LogLevel env then apex_WarnLevel
  else if sylog_GetLevel env <? sylog_DebugLevel env then apex_InfoLevel
  else apex_DebugLevel.

(** What every run logs before it opens the layout. *)
Definition preamble (env : Env) : list event :=
  apexlog_SetLevel (apexLevelOf env)
  :: (if namespaces_IsUnprivileged env
      then [sylog_Debugf "setting umoci rootless mode" []] else []).

(** A run of [unpackRootfs], stage by stage: the value returned and the
    state at the return statement that is taken. *)
Definition stages (env : Env) (b : Bundle) (tmpfsRef : ImageReference) (fs : OS.FS)
  : option error * state :=
  let t0 := preamble env in
  match fst (resolveMapOptions env (start ∅)) with
  | inl err => (Some err, {| files := fs; trace := t0 |})
  | inr mapOptions =>
      let t1 := (t0 ++ [call_OpenLayout (TmpDir b)])%list in
      match umoci_OpenLayout env (TmpDir b) with
      | inl err =>
          (Some (Errorf_s "error opening layout: " err), {| files := fs; trace := t1 |})
      | inr engineExt =>
          let t2 := (t1 ++ [call_NewImageSource])%list in
          match NewImageSource tmpfsRef with
          | inl err =>
              (Some (Errorf_s "error creating image source: " err),
               {| files := fs; trace := t2 |})
          | inr imageSource =>
              let t3 := (t2 ++ [call_GetManifest])%list in
              match GetManifest imageSource with
              | inl err =>
                  (Some (Errorf_s "error obtaining manifest source: " err),
                   {| files := fs; trace := t3 |})
              | inr (manifestData, mediaType) =>
                  if negb (String.eqb mediaType MediaTypeImageManifest) then
                    (Some (errorString
                             ("error verifying manifest media type: " ++ mediaType)),
                     {| files := fs; trace := t3 |})
                  else
                    let manifest :=
                      normalize (fst (json_Unmarshal env manifestData zeroManifest)) in
                    let found := fst (os_RemoveAll env fs (RootfsPath b)) in
                    let o := {| UnpackMapOptions := mapOptions |} in
                    let u := umocilayer_UnpackRootfs env found engineExt
                               (RootfsPath b) manifest o in
                    let s1 :=
                      {| files := fst u;
                         trace := t3 ++ [ call_Unmarshal manifestData;
                                          call_RemoveAll (RootfsPath b);
                                          call_UnpackRootfs found engineExt
                                            (RootfsPath b) manifest o ] |} in
                    match snd u with
                    | Some err => (Some (Errorf_s "error unpacking rootfs: " err), s1)
                    | None =>
                        (fst (postProcess env b s1),
                         {| files := files (snd (postProcess env b s1));
                            trace := trace s1 ++ postEvents env b (fst u) |})
                    end
              end
          end
      end
  end.

(** ** Scenarios *)

(** An unpack capability that fails after creating the target. *)
Definition unpack_fails (fs : OS.FS) (e : Engine) (rootfs : string)
  (m : Manifest) (o : UnpackOptions) : OS.FS * option error :=
  (<[rootfs := OS.Directory 493]> fs,
   Some (withMessage "unpack layer" (errorString "no space left on device"))).

(** A tree walk that meets only entries their owner can manage. *)
Definition entriesClean (fs : OS.FS) (root : string) : list entry :=
  [ Accessible root {| OS.Name := "rootfs"; OS.Mode := Z.lor OS.ModeDir 493 |};
    Accessible (root ++ "/bin") {| OS.Name := "bin"; OS.Mode := Z.lor OS.ModeDir 448 |};
    Accessible (root ++ "/bin/sh") {| OS.Name := "sh"; OS.Mode := 73 |} ].

(** A tree walk that is stopped by a stale handle. *)
Definition entriesStale (fs : OS.FS) (root : string) : list entry :=
  [ Accessible root {| OS.Name := "rootfs"; OS.Mode := Z.lor OS.ModeDir 493 |};
    Failed (root ++ "/mnt") None (PathError "lstat" (root ++ "/mnt") ESTALE);
    Accessible (root ++ "/etc") {| OS.Name := "etc"; OS.Mode := Z.lor OS.ModeDir 320 |} ].

Definition envOf (level euid egid : Z) (unprivileged : bool)
  (unpack : OS.FS -> Engine -> string -> Manifest -> UnpackOptions -> OS.FS * option error)
  (entries : OS.FS -> string -> list entry) : Env :=
  {| sylog_GetLevel := level;
     sylog_ErrorLevel := -3;
     sylog_LogLevel := -1;
     sylog_DebugLevel := 5;
     namespaces_IsUnprivileged := unprivileged;
     os_Geteuid := euid;
     os_Getegid := egid;
     umoci_OpenLayout := fun dir => inr {| layoutPath := dir |};
     json_Unmarshal := Demo.unmarshal;
     os_RemoveAll := Demo.removeAll_ok;
     umocilayer_UnpackRootfs := unpack;
     sytypes_FixPerms := fun fs _ => (fs, None);
     fs_entries := entries |}.

(** An image reference whose source cannot be created. *)
Definition refUnreachable : ImageReference :=
  {| NewImageSource := inl (errorString "dial tcp: connection refused") |}.

(** The same collaborators, with an [os.RemoveAll] that leaves the file
    system as before but never reports an error. *)
Definition withSilentRemoval (env : Env) : Env :=
  {| sylog_GetLevel := sylog_GetLevel env;
     sylog_ErrorLevel := sylog_ErrorLevel env;
     sylog_LogLevel := sylog_LogLevel env;
     sylog_DebugLevel := sylog_DebugLevel env;
     namespaces_IsUnprivileged := namespaces_IsUnprivileged env;
     os_Geteuid := os_Geteuid env;
     os_Getegid := os_Getegid env;
     umoci_OpenLayout := umoci_OpenLayout env;
     json_Unmarshal := json_Unmarshal env;
     os_RemoveAll := fun fs path => (fst (os_RemoveAll env fs path), None);
     umocilayer_UnpackRootfs := umocilayer_UnpackRootfs env;
     sytypes_FixPerms := sytypes_FixPerms env;
     fs_entries := fs_entries env |}.

(** The first cells of the rows written to the table, in the order in
    which they are written (the heading row included). *)
Fixpoint rowNames (out : list Apptainer.output) : list string :=
  match out with
  | [] => []
  | Apptainer.Fprintf_tw (n :: _) :: rest => n :: rowNames rest
  | _ :: rest => rowNames rest
  end.

(** A row of the listing that shows its remote as the active one. *)
Definition is_active_row (o : Apptainer.output) : bool :=
  match o with
  | Apptainer.Fprintf_tw [_; _; active; _; _; _] => String.eqb active "YES"
  | _ => false
  end.


(** A home directory with a configuration file. *)
Definition homeConfigured : OS.FS :=
  <["/home/u/.apptainer/remote.yaml" := OS.File 384 (Demo.bytes "x")]> Demo.home.

End Views.

(* ===================================================================== *)
(** * Properties of the string functions *)
(* ===================================================================== *)

Module GoStrFacts.

Import GoStr.

Example Itoa_1000 : Itoa 1000 = "1000". Proof. reflexivity. Qed.
Example Itoa_0 : Itoa 0 = "0". Proof. reflexivity. Qed.
Example Itoa_neg : Itoa (-42) = "-42". Proof. reflexivity. Qed.
Example Atoi_plus : Atoi "+17" = Some 17. Proof. reflexivity. Qed.
Example Atoi_bad : Atoi "1x" = None. Proof. reflexivity. Qed.
Example Split_3 : Split ":" "0:1000:1" = ["0"; "1000"; "1"]. Proof. reflexivity. Qed.

Lemma digit_of_digit_char d :
  0 <= d < 10 -> digit_of (digit_char d) = Some d.
Proof.
  intros Hd.
  assert (Hcases : d = 0 \/ d = 1 \/ d = 2 \/ d = 3 \/ d = 4 \/
                   d = 5 \/ d = 6 \/ d = 7 \/ d = 8 \/ d = 9) by lia.
  repeat (destruct Hcases as [-> | Hcases]; [reflexivity |]).
  subst d. reflexivity.
Qed.

Lemma utoa_aux_parse fuel : forall n acc,
  0 <= n < 10 ^ Z.of_nat fuel ->
  parse_digits 0 (utoa_aux fuel n acc) = parse_digits n acc.
Proof.
  induction fuel as [| fuel IH]; intros n acc Hn.
  - simpl in Hn. assert (n = 0) by lia. subst n. reflexivity.
  - cbn [utoa_aux].
    assert (Hmod : 0 <= n mod 10 < 10) by (apply Z.mod_pos_bound; lia).
    destruct (n <? 10) eqn:Hlt.
    + apply Z.ltb_lt in Hlt. rewrite Z.mod_small by lia.
      cbn [parse_digits]. rewrite digit_of_digit_char by lia.
      f_equal.
    + apply Z.ltb_ge in Hlt.
      rewrite IH.
      * cbn [parse_digits]. rewrite digit_of_digit_char by lia.
        f_equal. pose proof (Z.div_mod n 10). lia.
      * rewrite Nat2Z.inj_succ, Z.pow_succ_r in Hn by lia.
        split; [apply Z.div_pos; lia |].
        apply Z.div_lt_upper_bound; lia.
Qed.

Lemma utoa_aux_digits fuel : forall n acc,
  0 <= n -> all_digits acc = true -> all_digits (utoa_aux fuel n acc) = true.
Proof.
  induction fuel as [| fuel IH]; intros n acc Hn Hacc; [exact Hacc |].
  cbn [utoa_aux].
  assert (Hmod : 0 <= n mod 10 < 10) by (apply Z.mod_pos_bound; lia).
  assert (Hstep : all_digits (String (digit_char (n mod 10)) acc) = true).
  { cbn [all_digits]. rewrite digit_of_digit_char by lia. exact Hacc. }
  destruct (n <? 10); [exact Hstep |].
  apply IH; [apply Z.div_pos; lia | exact Hstep].
Qed.

Lemma utoa_aux_nonempty fuel n acc :
  utoa_aux (S fuel) n acc <> EmptyString.
Proof.
  revert n acc. induction fuel as [| fuel IH]; intros n acc.
  - cbn. destruct (n <? 10); discriminate.
  - cbn [utoa_aux]. destruct (n <? 10); [discriminate |].
    apply IH.
Qed.

Lemma fuel_enough n :
  0 <= n -> n < 10 ^ Z.of_nat (S (Z.to_nat (Z.log2 n))).
Proof.
  intros Hn.
  destruct (Z.eq_dec n 0) as [-> | Hnz]; [reflexivity |].
  rewrite Nat2Z.inj_succ, Z2Nat.id by apply Z.log2_nonneg.
  pose proof (Z.log2_spec n ltac:(lia)) as [_ Hup].
  eapply Z.lt_le_trans; [exact Hup |].
  apply Z.pow_le_mono_l. lia.
Qed.

Lemma parse_utoa n : 0 <= n -> parse_digits 0 (utoa n) = Some n.
Proof.
  intros Hn. unfold utoa.
  rewrite utoa_aux_parse; [reflexivity |].
  split; [exact Hn | apply fuel_enough; exact Hn].
Qed.

Lemma utoa_digits n : 0 <= n -> all_digits (utoa n) = true.
Proof. intros Hn. apply utoa_aux_digits; [exact Hn | reflexivity]. Qed.

Lemma utoa_nonempty n : utoa n <> EmptyString.
Proof. apply utoa_aux_nonempty. Qed.

Lemma Split_free sep s : free_of sep s = true -> Split sep s = [s].
Proof.
  induction s as [| c s IH]; [reflexivity |].
  cbn [free_of Split]. intros [Hc Hs]%andb_prop.
  apply negb_true_iff in Hc. rewrite Hc, (IH Hs). reflexivity.
Qed.

Lemma Split_app sep s t :
  free_of sep s = true -> Split sep (s ++ String sep t) = s :: Split sep t.
Proof.
  induction s as [| c s IH]; intros Hfree.
  - change (Split sep (String sep t) = EmptyString :: Split sep t).
    cbn [Split]. rewrite Ascii.eqb_refl. reflexivity.
  - cbn [free_of] in Hfree. apply andb_prop in Hfree as [Hc Hs].
    apply negb_true_iff in Hc.
    change (String c s ++ String sep t)%string with (String c (s ++ String sep t)).
    cbn [Split]. rewrite Hc, (IH Hs). reflexivity.
Qed.

Lemma digit_not_char c d (x : ascii) :
  digit_of c = Some d -> digit_of x = None -> Ascii.eqb c x = false.
Proof.
  intros Hc Hx. destruct (Ascii.eqb c x) eqn:E; [| reflexivity].
  apply Ascii.eqb_eq in E. subst x. congruence.
Qed.

Lemma all_digits_free s (x : ascii) :
  digit_of x = None -> all_digits s = true -> free_of x s = true.
Proof.
  intros Hx. induction s as [| c s IH]; [reflexivity |].
  cbn [all_digits free_of]. destruct (digit_of c) as [d |] eqn:Hc; [| discriminate].
  intros Hs. rewrite (digit_not_char c d x Hc Hx), (IH Hs). reflexivity.
Qed.

Lemma Itoa_free z : free_of ":" (Itoa z) = true.
Proof.
  unfold Itoa. destruct (z <? 0) eqn:Hz.
  - apply Z.ltb_lt in Hz. cbn [free_of].
    rewrite all_digits_free; [reflexivity | reflexivity | apply utoa_digits; lia].
  - apply Z.ltb_ge in Hz.
    apply all_digits_free; [reflexivity | apply utoa_digits; lia].
Qed.

(** Parsing what [%d] prints gives the number back. *)
Lemma Atoi_Itoa z : int_min <= z <= int_max -> Atoi (Itoa z) = Some z.
Proof.
  intros Hz. unfold Itoa. destruct (z <? 0) eqn:Hneg.
  - apply Z.ltb_lt in Hneg. unfold Atoi. rewrite Ascii.eqb_refl.
    destruct (utoa (- z)) as [| c s] eqn:Hu; [now apply utoa_nonempty in Hu |].
    rewrite <- Hu, parse_utoa by lia.
    replace (- - z) with z by lia.
    destruct ((int_min <=? z) && (z <=? int_max)) eqn:Hr; [reflexivity |].
    apply andb_false_iff in Hr as [Hr | Hr]; [apply Z.leb_gt in Hr | apply Z.leb_gt in Hr]; lia.
  - apply Z.ltb_ge in Hneg.
    pose proof (utoa_digits z Hneg) as Hd.
    destruct (utoa z) as [| c s] eqn:Hu; [now apply utoa_nonempty in Hu |].
    cbn [all_digits] in Hd. destruct (digit_of c) as [d |] eqn:Hc; [| discriminate].
    unfold Atoi.
    rewrite (digit_not_char c d "-" Hc eq_refl), (digit_not_char c d "+" Hc eq_refl).
    rewrite <- Hu, parse_utoa by lia.
    destruct ((int_min <=? z) && (z <=? int_max)) eqn:Hr; [reflexivity |].
    apply andb_false_iff in Hr as [Hr | Hr]; [apply Z.leb_gt in Hr | apply Z.leb_gt in Hr]; lia.
Qed.

End GoStrFacts.

(* ===================================================================== *)
(** * The ID mappings *)
(* ===================================================================== *)

Module MappingFacts.

Import Errs.

Lemma Split_mappingSpec id :
  GoStr.Split ":" (Sources.mappingSpec id) = ["0"; GoStr.Itoa id; "1"].
Proof.
  unfold Sources.mappingSpec.
  change ("0:" ++ GoStr.Itoa id ++ ":1")%string
    with ("0" ++ String ":" (GoStr.Itoa id ++ String ":" "1"))%string.
  rewrite GoStrFacts.Split_app by reflexivity.
  rewrite GoStrFacts.Split_app by apply GoStrFacts.Itoa_free.
  reflexivity.
Qed.

(** The descriptor string the code builds always parses: container 0,
    the host ID as a [uint32], size 1. *)
Lemma ParseMapping_mappingSpec id :
  GoStr.int_min <= id <= GoStr.int_max ->
  Idtools.ParseMapping (Sources.mappingSpec id)
  = inr {| Rspec.ContainerID := 0; Rspec.HostID := Rspec.uint32 id; Rspec.Size := 1 |}.
Proof.
  intros Hid. unfold Idtools.ParseMapping.
  rewrite Split_mappingSpec.
  change (Idtools.Atoi "1") with (@inr error Z 1).
  change (Idtools.Atoi "0") with (@inr error Z 0).
  unfold Idtools.Atoi at 1. rewrite GoStrFacts.Atoi_Itoa by exact Hid.
  reflexivity.
Qed.

Lemma uint32_small id : 0 <= id < 2 ^ 32 -> Rspec.uint32 id = id.
Proof. intros H. unfold Rspec.uint32. apply Z.mod_small. exact H. Qed.

End MappingFacts.

(* ===================================================================== *)
(** * Runs of [checkPerms] and [unpackRootfs] *)
(* ===================================================================== *)

Module SourcesFacts.

Import Errs Imgspec Sources.

Lemma extend_nil s : extend s [] = s.
Proof. destruct s as [fs tr]. unfold extend. cbn. rewrite app_nil_r. reflexivity. Qed.

Lemma extend_extend s a b : extend (extend s a) b = extend s (a ++ b).
Proof. unfold extend. cbn. rewrite <- app_assoc. reflexivity. Qed.

Lemma emit_run e s : emit e s = (tt, extend s [e]).
Proof. reflexivity. Qed.

(** The walk function only logs; its result does not depend on the state. *)
Lemma walkFn_run e s : walkFn e s = (verdict e, extend s (notes e)).
Proof.
  unfold verdict, notes.
  destruct e as [path f | path f err]; cbn [walkFn].
  - destruct (OS.IsDir (OS.Mode f) && negb (Z.land (OS.Perm (OS.Mode f)) 448 =? 448)).
    + reflexivity.
    + cbn. rewrite extend_nil. reflexivity.
  - destruct (os_IsPermission err).
    + reflexivity.
    + cbn. rewrite extend_nil. reflexivity.
Qed.

Lemma walkEntries_run entries : forall s,
  walkEntries entries walkFn s = (walkVerdict entries, extend s (walkNotes entries)).
Proof.
  induction entries as [| e rest IH]; intros s.
  - cbn. rewrite extend_nil. reflexivity.
  - cbn [walkEntries walkVerdict walkNotes]. unfold bind at 1.
    rewrite walkFn_run. destruct (verdict e) as [err |].
    + reflexivity.
    + rewrite IH, extend_extend. reflexivity.
Qed.

(** The walk function logs debug messages only. *)
Lemma notes_quiet e :
  Forall (fun ev => is_warning ev = false /\ is_extraction ev = false) (notes e).
Proof.
  unfold notes. destruct e as [path f | path f err]; cbn [walkFn].
  - destruct (OS.IsDir (OS.Mode f) && negb (Z.land (OS.Perm (OS.Mode f)) 448 =? 448));
      cbn; repeat constructor.
  - destruct (os_IsPermission err); cbn; repeat constructor.
Qed.

Lemma walkNotes_quiet entries :
  Forall (fun ev => is_warning ev = false /\ is_extraction ev = false) (walkNotes entries).
Proof.
  induction entries as [| e rest IH]; cbn [walkNotes]; [constructor |].
  destruct (verdict e); [apply notes_quiet |].
  apply Forall_app. split; [apply notes_quiet | exact IH].
Qed.

(** The walk function returns nil, the sentinel, or a new error string. *)
Lemma verdict_cases e err :
  verdict e = Some err ->
  err = errRestrictivePerm \/ exists msg, err = errorString msg.
Proof.
  unfold verdict. destruct e as [path f | path f e0]; cbn [walkFn].
  - destruct (OS.IsDir (OS.Mode f) && negb (Z.land (OS.Perm (OS.Mode f)) 448 =? 448));
      cbn; intros [= <-] || discriminate. now left.
  - destruct (os_IsPermission e0); cbn; intros [= <-]; [now left | right; eauto].
Qed.

Lemma walkVerdict_cases entries err :
  walkVerdict entries = Some err ->
  err = errRestrictivePerm \/ exists msg, err = errorString msg.
Proof.
  induction entries as [| e rest IH]; cbn [walkVerdict]; [discriminate |].
  destruct (verdict e) as [err' |] eqn:Hv; [| exact IH].
  intros [= <-]. eapply verdict_cases; exact Hv.
Qed.

(** [checkPerms], as a function of the outcome of the walk. *)
Lemma checkPerms_run env rootfs s :
  let entries := fs_entries env (files s) rootfs in
  checkPerms env rootfs s =
  if errors_Is_sentinel (walkVerdict entries)
  then (None, extend s (call_PermWalkRaiseError rootfs :: walkNotes entries ++ advisory))
  else (walkVerdict entries, extend s (call_PermWalkRaiseError rootfs :: walkNotes entries)).
Proof.
  cbn zeta. unfold checkPerms, PermWalkRaiseError, get_files.
  unfold bind at 1 2 3. rewrite emit_run. cbn [files extend].
  rewrite walkEntries_run, extend_extend.
  destruct (errors_Is_sentinel _); [| reflexivity].
  unfold bind, emit, ret, extend, advisory. cbn [files trace].
  repeat rewrite <- app_assoc. reflexivity.
Qed.

End SourcesFacts.

(* ===================================================================== *)
(** * File modes, bit by bit *)
(* ===================================================================== *)

Module OSFacts.

(** [m.IsDir()] reads bit 31. *)
Lemma IsDir_testbit m : OS.IsDir m = Z.testbit m 31.
Proof.
  unfold OS.IsDir, OS.ModeDir. change (Z.shiftl 1 31) with (2 ^ 31).
  destruct (Z.testbit m 31) eqn:Hb.
  - apply negb_true_iff, Z.eqb_neq. intros H0.
    assert (Ht : Z.testbit (Z.land m (2 ^ 31)) 31 = true).
    { rewrite Z.land_spec, Hb. reflexivity. }
    rewrite H0 in Ht. discriminate.
  - apply negb_false_iff, Z.eqb_eq. apply Z.bits_inj'. intros n Hn.
    rewrite Z.land_spec, Z.bits_0, Z.pow2_bits_eqb by lia.
    destruct (Z.eqb_spec 31 n) as [<- | _].
    + rewrite Hb. reflexivity.
    + apply andb_false_r.
Qed.

Lemma testbit_448 n :
  0 <= n -> Z.testbit 448 n = (n =? 6) || (n =? 7) || (n =? 8).
Proof.
  intros Hn. destruct (Z_lt_le_dec n 9) as [Hlt | Hge].
  - assert (Hc : n = 0 \/ n = 1 \/ n = 2 \/ n = 3 \/ n = 4 \/ n = 5 \/
                 n = 6 \/ n = 7 \/ n = 8) by lia.
    repeat (destruct Hc as [-> | Hc]; [reflexivity |]). subst n. reflexivity.
  - rewrite Z.bits_above_log2 by (cbn; lia).
    symmetry. repeat (apply orb_false_intro); apply Z.eqb_neq; lia.
Qed.

(** The test [f.Mode().Perm()&0o700 != 0o700] fails exactly when the
    owner has read (bit 8), write (bit 7) and execute (bit 6). *)
Lemma owner_rwx_testbit m :
  (Z.land (OS.Perm m) 448 =? 448)
  = Z.testbit m 8 && Z.testbit m 7 && Z.testbit m 6.
Proof.
  unfold OS.Perm, OS.ModePerm.
  rewrite <- Z.land_assoc. change (Z.land 511 448) with 448.
  destruct (Z.testbit m 8 && Z.testbit m 7 && Z.testbit m 6) eqn:Hb.
  - apply andb_prop in Hb as [Hb H6]. apply andb_prop in Hb as [H8 H7].
    apply Z.eqb_eq, Z.bits_inj'. intros n Hn.
    rewrite Z.land_spec, testbit_448 by exact Hn.
    destruct (Z.eqb_spec n 6) as [-> | _]; [rewrite H6; reflexivity |].
    destruct (Z.eqb_spec n 7) as [-> | _]; [rewrite H7; reflexivity |].
    destruct (Z.eqb_spec n 8) as [-> | _]; [rewrite H8; reflexivity |].
    apply andb_false_r.
  - apply Z.eqb_neq. intros Heq.
    assert (Hall : forall n, Z.testbit 448 n = true -> Z.testbit m n = true).
    { intros n Hn. rewrite <- Heq, Z.land_spec in Hn.
      apply andb_prop in Hn as [Hm _]. exact Hm. }
    rewrite (Hall 8 eq_refl), (Hall 7 eq_refl), (Hall 6 eq_refl) in Hb.
    discriminate.
Qed.

End OSFacts.

(* ===================================================================== *)
(** * The permission scanner *)
(* ===================================================================== *)

Module PermissionScanner.

Import Errs Sources SourcesFacts.

Lemma PermWalkRaiseError_run env rootfs s :
  PermWalkRaiseError env rootfs walkFn s
  = (walkVerdict (fs_entries env (files s) rootfs),
     extend s (call_PermWalkRaiseError rootfs
               :: walkNotes (fs_entries env (files s) rootfs))).
Proof.
  unfold PermWalkRaiseError, get_files. unfold bind at 1 2. rewrite emit_run.
  cbn [files extend]. rewrite walkEntries_run, extend_extend. reflexivity.
Qed.

Lemma filter_quiet (l : list event) :
  Forall (fun ev => is_warning ev = false /\ is_extraction ev = false) l ->
  List.filter is_warning l = [].
Proof.
  induction 1 as [| ev l [Hw _] _ IH]; [reflexivity |].
  cbn. rewrite Hw. exact IH.
Qed.

(** C2: whenever the walk of a rootfs ends with the permission-violation
    sentinel, [checkPerms] returns nil and what it adds to the log of the
    walk is exactly the three advisory warnings; the value [checkPerms]
    returns never is the sentinel; and any other error of the walk is
    returned as it is, with no warning. *)
Theorem checkPerms_converts_sentinel env rootfs fs :
  let walk := run (PermWalkRaiseError env rootfs walkFn) fs in
  let r := run (checkPerms env rootfs) fs in
  (fst walk = Some errRestrictivePerm ->
     fst r = None
     /\ trace (snd r) = (trace (snd walk) ++ advisory)%list
     /\ List.filter is_warning (trace (snd r)) = advisory
     /\ files (snd r) = fs)
  /\ errors_Is_sentinel (fst r) = false
  /\ (forall err, fst walk = Some err -> err <> errRestrictivePerm ->
        fst r = Some err /\ snd r = snd walk
        /\ List.filter is_warning (trace (snd r)) = []).
Proof.
  cbn zeta. unfold run.
  rewrite PermWalkRaiseError_run, checkPerms_run. unfold start. cbn [fst snd files].
  set (entries := fs_entries env fs rootfs).
  pose proof (walkNotes_quiet entries) as Hq.
  split; [| split].
  - intros Hv. rewrite Hv. cbn [errors_Is_sentinel Is_errRestrictivePerm fst snd].
    cbn [extend trace files app].
    repeat split.
    cbn [List.filter is_warning]. rewrite List.filter_app, (filter_quiet _ Hq).
    reflexivity.
  - destruct (walkVerdict entries) as [err |] eqn:Hv; [| reflexivity].
    destruct (walkVerdict_cases _ _ Hv) as [-> | [msg ->]]; reflexivity.
  - intros err Hv Hne. rewrite Hv.
    destruct (walkVerdict_cases _ _ Hv) as [-> | [msg ->]]; [congruence |].
    cbn [errors_Is_sentinel Is_errRestrictivePerm fst snd extend trace app].
    repeat split.
    cbn [List.filter is_warning]. apply filter_quiet. exact Hq.
Qed.

Lemma checkPerms_converts_sentinel_witness :
  fst (run (checkPerms (Demo.env true Demo.removeAll_ok) "/build/rootfs") Demo.populated)
  = None
  /\ List.filter is_warning
       (trace (snd (run (checkPerms (Demo.env true Demo.removeAll_ok) "/build/rootfs")
                        Demo.populated)))
     = advisory.
Proof.
  destruct (checkPerms_converts_sentinel (Demo.env true Demo.removeAll_ok)
              "/build/rootfs" Demo.populated) as [H _].
  destruct (H ltac:(vm_compute; reflexivity)) as (H1 & _ & H3 & _).
  split; [exact H1 | exact H3].
Defined.

Lemma walkVerdict_first before e after err :
  Forall (fun e' => verdict e' = None) before ->
  verdict e = Some err ->
  walkVerdict (before ++ e :: after) = Some err.
Proof.
  induction 1 as [| e' before He' _ IH]; intros Hv; cbn [app walkVerdict].
  - rewrite Hv. reflexivity.
  - rewrite He'. apply IH. exact Hv.
Qed.

(** C7: the walk function of the scanner.  An entry whose access failed
    with a permission error raises the sentinel; one whose access failed
    otherwise gives a new error that wraps the cause in its message, and
    when it is the first error of the walk [checkPerms] returns just that
    error; an accessible directory (mode bit 31) lacking one of owner
    read, write, execute (bits 8, 7, 6) raises the sentinel; an accessible
    directory with all three, and any accessible entry that is not a
    directory, give nil. *)
Theorem walkFn_classifies (s : state) (path : string) :
  (forall f err, os_IsPermission err = true ->
     fst (walkFn (Failed path f err) s) = Some errRestrictivePerm)
  /\ (forall f err, os_IsPermission err = false ->
        let hard :=
          errorString ("unable to access rootfs path " ++ path ++ ": " ++ Error err) in
        fst (walkFn (Failed path f err) s) = Some hard
        /\ Is_errRestrictivePerm hard = false
        /\ forall env rootfs fs before after,
             fs_entries env fs rootfs = (before ++ Failed path f err :: after)%list ->
             Forall (fun e => fst (walkFn e s) = None) before ->
             fst (run (checkPerms env rootfs) fs) = Some hard)
  /\ (forall f, Z.testbit (OS.Mode f) 31 = true ->
        Z.testbit (OS.Mode f) 8 && Z.testbit (OS.Mode f) 7 && Z.testbit (OS.Mode f) 6
        = false ->
        fst (walkFn (Accessible path f) s) = Some errRestrictivePerm)
  /\ (forall f, Z.testbit (OS.Mode f) 31 = true ->
        Z.testbit (OS.Mode f) 8 && Z.testbit (OS.Mode f) 7 && Z.testbit (OS.Mode f) 6
        = true ->
        fst (walkFn (Accessible path f) s) = None)
  /\ (forall f, Z.testbit (OS.Mode f) 31 = false ->
        fst (walkFn (Accessible path f) s) = None).
Proof.
  repeat split.
  - intros f err Hp. cbn [walkFn]. rewrite Hp. reflexivity.
  - cbn [walkFn]. rewrite H. reflexivity.
  - intros env rootfs fs before after Hent Hbefore.
    unfold run. rewrite checkPerms_run. unfold start. cbn [files].
    rewrite Hent.
    assert (Hv : walkVerdict (before ++ Failed path f err :: after)
                 = Some (errorString
                           ("unable to access rootfs path " ++ path ++ ": " ++ Error err))).
    { apply walkVerdict_first.
      - eapply Forall_impl; [exact Hbefore |].
        intros e He. cbn beta in He. rewrite walkFn_run in He. exact He.
      - unfold verdict. cbn [walkFn]. rewrite H. reflexivity. }
    rewrite Hv. reflexivity.
  - intros f Hdir Hperm. cbn [walkFn].
    rewrite OSFacts.IsDir_testbit, OSFacts.owner_rwx_testbit, Hdir, Hperm. reflexivity.
  - intros f Hdir Hperm. cbn [walkFn].
    rewrite OSFacts.IsDir_testbit, OSFacts.owner_rwx_testbit, Hdir, Hperm. reflexivity.
  - intros f Hdir. cbn [walkFn].
    rewrite OSFacts.IsDir_testbit, Hdir. reflexivity.
Qed.

Lemma walkFn_classifies_witness :
  fst (walkFn (Failed "/build/rootfs/proc" None (PathError "lstat" "/build/rootfs/proc" EACCES))
         (start Demo.populated))
  = Some errRestrictivePerm
  /\ fst (walkFn (Failed "/build/rootfs/mnt" None (PathError "lstat" "/build/rootfs/mnt" ESTALE))
            (start Demo.populated))
     = Some (errorString
               "unable to access rootfs path /build/rootfs/mnt: lstat /build/rootfs/mnt: stale NFS file handle")
  /\ fst (walkFn (Accessible "/build/rootfs/etc"
                    {| OS.Name := "etc"; OS.Mode := Z.lor OS.ModeDir 320 |})
            (start Demo.populated))
     = Some errRestrictivePerm
  /\ fst (walkFn (Accessible "/build/rootfs/etc/keep" {| OS.Name := "keep"; OS.Mode := 256 |})
            (start Demo.populated))
     = None.
Proof.
  split; [| split; [| split]].
  - apply (walkFn_classifies (start Demo.populated) "/build/rootfs/proc"). reflexivity.
  - apply (walkFn_classifies (start Demo.populated) "/build/rootfs/mnt"
             : _ /\ (forall f err, _ -> _ /\ _) /\ _). reflexivity.
  - apply (walkFn_classifies (start Demo.populated) "/build/rootfs/etc");
      vm_compute; reflexivity.
  - apply (walkFn_classifies (start Demo.populated) "/build/rootfs/etc/keep").
    vm_compute. reflexivity.
Defined.

End PermissionScanner.

(* ===================================================================== *)
(** * The unpacking pipeline *)
(* ===================================================================== *)

Module Pipeline.

Import Errs Imgspec Sources SourcesFacts.

Lemma setApexLevel_run env s :
  exists l, setApexLevel env s = (tt, extend s [apexlog_SetLevel l]).
Proof.
  unfold setApexLevel.
  destruct (_ <=? sylog_ErrorLevel env); [eexists; reflexivity |].
  destruct (_ <=? sylog_LogLevel env); [eexists; reflexivity |].
  destruct (_ <? sylog_DebugLevel env); eexists; reflexivity.
Qed.

(** The block that fills [mapOptions] logs at most one debug message and
    its outcome does not depend on the state. *)
Lemma resolveMapOptions_run env s :
  resolveMapOptions env s
  = (fst (resolveMapOptions env (start ∅)),
     extend s (if namespaces_IsUnprivileged env
               then [sylog_Debugf "setting umoci rootless mode" []] else [])).
Proof.
  unfold resolveMapOptions.
  destruct (namespaces_IsUnprivileged env).
  - unfold bind. rewrite !emit_run.
    destruct (Idtools.ParseMapping (mappingSpec (os_Geteuid env))); [reflexivity |].
    destruct (Idtools.ParseMapping (mappingSpec (os_Getegid env))); reflexivity.
  - cbn. rewrite extend_nil. reflexivity.
Qed.

(** With IDs that fit an [int], the block cannot fail, and in the range
    of [uint32] the descriptors carry the IDs themselves. *)
Lemma resolveMapOptions_value env :
  0 <= os_Geteuid env < 2 ^ 32 -> 0 <= os_Getegid env < 2 ^ 32 ->
  fst (resolveMapOptions env (start ∅))
  = inr (expectedMapOptions (namespaces_IsUnprivileged env)
           (os_Geteuid env) (os_Getegid env)).
Proof.
  intros Hu Hg. unfold resolveMapOptions, expectedMapOptions.
  destruct (namespaces_IsUnprivileged env); [| reflexivity].
  unfold bind. rewrite emit_run.
  rewrite !MappingFacts.ParseMapping_mappingSpec
    by (unfold GoStr.int_min, GoStr.int_max; lia).
  rewrite !MappingFacts.uint32_small by assumption.
  reflexivity.
Qed.

(** [postProcess], branch by branch. *)
Lemma postProcess_run env b s :
  postProcess env b s =
  if FixPerms (Opts b) then
    (snd (sytypes_FixPerms env (files s) (RootfsPath b)),
     {| files := fst (sytypes_FixPerms env (files s) (RootfsPath b));
        trace := trace s ++
          [ sylog_Warningf "The --fix-perms option modifies the filesystem permissions on the resulting container." [];
            sylog_Debugf "Modifying permissions for file/directory owners" [];
            call_FixPerms (RootfsPath b) ] |})
  else if SandboxTarget (Opts b) then
    checkPerms env (RootfsPath b)
      (extend s [sylog_Debugf "Scanning for restrictive permissions" []])
  else (None, s).
Proof.
  unfold postProcess.
  destruct (FixPerms (Opts b)); [| destruct (SandboxTarget (Opts b)); reflexivity].
  unfold bind, emit, on_files. cbn [files trace].
  destruct (sytypes_FixPerms env (files s) (RootfsPath b)) as [fs' err].
  cbn [fst snd]. repeat rewrite <- app_assoc. reflexivity.
Qed.

(** Every run of [unpackRootfs] either stops with an error before the
    extraction step, having made no call of that step and left the file
    system alone, or it decodes, removes the target, calls the unpack
    capability, and goes on as the result of that call says. *)
Lemma unpackRootfs_run env b tmpfsRef fs :
  let r := run (unpackRootfs env b tmpfsRef) fs in
  (quiet (trace (snd r)) /\ files (snd r) = fs /\ fst r <> None
   /\ (~ In call_GetManifest (trace (snd r)) \/
       exists imageSource err,
         NewImageSource tmpfsRef = inr imageSource
         /\ GetManifest imageSource = inl err) \/
   exists pre mapOptions engineExt imageSource manifestData mediaType,
     quiet pre
     /\ fst (resolveMapOptions env (start ∅)) = inr mapOptions
     /\ umoci_OpenLayout env (TmpDir b) = inr engineExt
     /\ NewImageSource tmpfsRef = inr imageSource
     /\ GetManifest imageSource = inr (manifestData, mediaType)
     /\ if negb (String.eqb mediaType MediaTypeImageManifest) then
          r = (Some (errorString ("error verifying manifest media type: " ++ mediaType)),
               {| files := fs; trace := pre |})
        else
          let manifest := normalize (fst (json_Unmarshal env manifestData zeroManifest)) in
          let found := fst (os_RemoveAll env fs (RootfsPath b)) in
          let o := {| UnpackMapOptions := mapOptions |} in
          let u := umocilayer_UnpackRootfs env found engineExt (RootfsPath b) manifest o in
          let s1 :=
            {| files := fst u;
               trace := pre ++ [ call_Unmarshal manifestData;
                                 call_RemoveAll (RootfsPath b);
                                 call_UnpackRootfs found engineExt (RootfsPath b) manifest o ] |} in
          r = match snd u with
              | Some err => (Some (Errorf_s "error unpacking rootfs: " err), s1)
              | None => postProcess env b s1
              end).
Proof.
  cbn zeta. unfold run, unpackRootfs, bind.
  destruct (setApexLevel_run env (start fs)) as [l ->]. cbv beta iota.
  rewrite resolveMapOptions_run. cbv beta iota.
  set (dbg := if namespaces_IsUnprivileged env then _ else _).
  assert (Hdbg : quiet dbg /\ ~ In call_GetManifest dbg).
  { subst dbg. destruct (namespaces_IsUnprivileged env).
    - split; [repeat constructor | intros [H | []]; discriminate].
    - split; [constructor | intros []]. }
  destruct Hdbg as [Hq Hg].
  unfold emit, ret, on_files, get_files, extend, start. cbn [files trace app fst snd].
  destruct (fst (resolveMapOptions env _)) as [err | mapOptions] eqn:Hmap.
  { left. cbn [fst snd trace files].
    split; [| split; [reflexivity | split; [discriminate | left]]].
    - constructor; [reflexivity | exact Hq].
    - intros [H | H]; [discriminate | exact (Hg H)]. }
  destruct (umoci_OpenLayout env (TmpDir b)) as [err | engineExt] eqn:Hopen.
  { left. cbn [fst snd trace files].
    split; [| split; [reflexivity | split; [discriminate | left]]].
    - constructor; [reflexivity |].
      apply Forall_app; split; [exact Hq | repeat constructor].
    - intros [H | H]; [discriminate |].
      apply in_app_or in H as [H | [H | []]]; [exact (Hg H) | discriminate]. }
  cbn [files trace].
  destruct (NewImageSource tmpfsRef) as [err | imageSource] eqn:Hsrc.
  { left. cbn [fst snd trace files].
    split; [| split; [reflexivity | split; [discriminate | left]]].
    - constructor; [reflexivity |].
      repeat (apply Forall_app; split); try exact Hq; repeat constructor.
    - intros [H | H]; [discriminate |].
      repeat (apply in_app_or in H as [H | H]); try exact (Hg H);
        destruct H as [H | []]; discriminate. }
  cbn [files trace].
  set (pre := ((((apexlog_SetLevel l :: dbg) ++ [call_OpenLayout (TmpDir b)])
               ++ [call_NewImageSource]) ++ [call_GetManifest])%list).
  assert (Hpre : quiet pre).
  { subst pre. repeat (apply Forall_app; split); try (repeat constructor; fail).
    constructor; [reflexivity | exact Hq]. }
  destruct (GetManifest imageSource) as [err | [manifestData mediaType]] eqn:Hget.
  { left. cbn [fst snd trace files].
    split; [exact Hpre | split; [reflexivity | split; [discriminate | right; eauto]]]. }
  right. exists pre, mapOptions, engineExt, imageSource, manifestData, mediaType.
  repeat (split; [assumption || reflexivity |]).
  destruct (negb (mediaType =? MediaTypeImageManifest)%string); [reflexivity |].
  cbn [files trace].
  destruct (umocilayer_UnpackRootfs env _ _ _ _ _) as [fs' [err |]];
    cbn [fst snd]; repeat rewrite <- app_assoc; reflexivity.
Qed.

(** After the unpack capability nothing calls it again, and nothing
    removes anything. *)
Lemma postProcess_tail env b s :
  exists post,
    trace (snd (postProcess env b s)) = (trace s ++ post)%list
    /\ Forall (fun ev => is_unpack ev = false) post.
Proof.
  rewrite postProcess_run.
  destruct (FixPerms (Opts b)); [| destruct (SandboxTarget (Opts b))].
  - eexists. split; [reflexivity | repeat constructor].
  - rewrite checkPerms_run. cbn zeta.
    set (entries := fs_entries env _ _).
    assert (Hn : Forall (fun ev => is_unpack ev = false) (walkNotes entries)).
    { eapply Forall_impl; [apply walkNotes_quiet |].
      intros ev [_ He]. destruct ev; try reflexivity; discriminate. }
    destruct (errors_Is_sentinel (walkVerdict entries)); cbn [snd extend trace].
    + rewrite <- app_assoc. eexists. split; [reflexivity |].
      cbn [app]. repeat constructor.
      apply Forall_app. split; [exact Hn | repeat constructor].
    + rewrite <- app_assoc. eexists. split; [reflexivity |].
      cbn [app]. repeat constructor. exact Hn.
  - exists []. rewrite app_nil_r. split; [reflexivity | constructor].
Qed.

Lemma quiet_no_unpack evs found eng rootfs m o :
  quiet evs -> ~ In (call_UnpackRootfs found eng rootfs m o) evs.
Proof.
  intros Hq Hin. unfold quiet in Hq. rewrite List.Forall_forall in Hq.
  specialize (Hq _ Hin). discriminate.
Qed.

(** A run in which the unpack capability is called: what led there, what
    the capability was given, and how the run ends. *)
Lemma reaches_extraction env b tmpfsRef fs found eng rootfs m o :
  let r := run (unpackRootfs env b tmpfsRef) fs in
  In (call_UnpackRootfs found eng rootfs m o) (trace (snd r)) ->
  exists pre mapOptions imageSource manifestData,
    quiet pre
    /\ fst (resolveMapOptions env (start ∅)) = inr mapOptions
    /\ umoci_OpenLayout env (TmpDir b) = inr eng
    /\ NewImageSource tmpfsRef = inr imageSource
    /\ GetManifest imageSource = inr (manifestData, MediaTypeImageManifest)
    /\ rootfs = RootfsPath b
    /\ m = normalize (fst (json_Unmarshal env manifestData zeroManifest))
    /\ found = fst (os_RemoveAll env fs (RootfsPath b))
    /\ o = {| UnpackMapOptions := mapOptions |}
    /\ let u := umocilayer_UnpackRootfs env found eng rootfs m o in
       let s1 :=
         {| files := fst u;
            trace := pre ++ [ call_Unmarshal manifestData;
                              call_RemoveAll (RootfsPath b);
                              call_UnpackRootfs found eng rootfs m o ] |} in
       r = match snd u with
           | Some err => (Some (Errorf_s "error unpacking rootfs: " err), s1)
           | None => postProcess env b s1
           end.
Proof.
  cbn zeta. intros Hin.
  destruct (unpackRootfs_run env b tmpfsRef fs)
    as [(Hq & _) | (pre & mapOptions & engineExt & imageSource & manifestData
                    & mediaType & Hpre & Hmap & Hopen & Hsrc & Hget & Hr)].
  { exfalso. eapply quiet_no_unpack; eassumption. }
  destruct (negb (mediaType =? MediaTypeImageManifest)%string) eqn:Hmt.
  { rewrite Hr in Hin. cbn [snd trace] in Hin.
    exfalso. eapply quiet_no_unpack; eassumption. }
  apply negb_false_iff, String.eqb_eq in Hmt. subst mediaType.
  cbn zeta in Hr.
  set (found0 := fst (os_RemoveAll env fs (RootfsPath b))) in *.
  set (m0 := normalize (fst (json_Unmarshal env manifestData zeroManifest))) in *.
  set (o0 := {| UnpackMapOptions := mapOptions |}) in *.
  set (u := umocilayer_UnpackRootfs env found0 engineExt (RootfsPath b) m0 o0) in *.
  set (s1 := {| files := fst u; trace := _ |}) in *.
  assert (Hev : In (call_UnpackRootfs found eng rootfs m o) (trace s1)).
  { rewrite Hr in Hin. destruct (snd u) as [err |]; [exact Hin |].
    destruct (postProcess_tail env b s1) as (post & Htr & Hpost).
    rewrite Htr in Hin. apply in_app_or in Hin as [Hin | Hin]; [exact Hin |].
    rewrite List.Forall_forall in Hpost. specialize (Hpost _ Hin). discriminate. }
  subst s1. cbn [trace] in Hev.
  apply in_app_or in Hev as [Hev | Hev].
  { exfalso. eapply quiet_no_unpack; eassumption. }
  destruct Hev as [Hev | [Hev | [Hev | []]]]; try discriminate.
  injection Hev as <- <- <- <- <-.
  exists pre, mapOptions, imageSource, manifestData.
  repeat (split; [assumption || reflexivity |]).
  exact Hr.
Qed.

(** C3: when the image source answers with a manifest whose reported
    media type is not the OCI image-manifest type, the run makes no call of
    the extraction step (no removal of the rootfs path, no call of the
    unpack capability, no permission fix, no scan), leaves the file system
    as it was, and returns an error; once the manifest has been fetched
    that error is the one naming the media type. *)
Theorem wrong_media_type_stops env b tmpfsRef fs imageSource manifestData mediaType :
  NewImageSource tmpfsRef = inr imageSource ->
  GetManifest imageSource = inr (manifestData, mediaType) ->
  mediaType <> MediaTypeImageManifest ->
  let r := run (unpackRootfs env b tmpfsRef) fs in
  (forall found eng rootfs m o,
     ~ In (call_UnpackRootfs found eng rootfs m o) (trace (snd r)))
  /\ (forall path, ~ In (call_RemoveAll path) (trace (snd r)))
  /\ quiet (trace (snd r))
  /\ files (snd r) = fs
  /\ fst r <> None
  /\ (In call_GetManifest (trace (snd r)) ->
      fst r = Some (errorString ("error verifying manifest media type: " ++ mediaType))).
Proof.
  intros Hsrc Hget Hmt. cbn zeta.
  assert (Hcore :
    quiet (trace (snd (run (unpackRootfs env b tmpfsRef) fs)))
    /\ files (snd (run (unpackRootfs env b tmpfsRef) fs)) = fs
    /\ fst (run (unpackRootfs env b tmpfsRef) fs) <> None
    /\ (In call_GetManifest (trace (snd (run (unpackRootfs env b tmpfsRef) fs))) ->
        fst (run (unpackRootfs env b tmpfsRef) fs)
        = Some (errorString ("error verifying manifest media type: " ++ mediaType)))).
  { destruct (unpackRootfs_run env b tmpfsRef fs)
      as [(Hq & Hf & Hne & Hg) | (pre & mapOptions & engineExt & src' & data' & mt'
                                  & Hpre & _ & _ & Hsrc' & Hget' & Hr)].
    - repeat (split; [assumption |]).
      intros Hin. destruct Hg as [Hg | (src' & err & Hsrc' & Hget')]; [contradiction |].
      congruence.
    - assert (src' = imageSource) by congruence. subst src'.
      assert (Heq : (data', mt') = (manifestData, mediaType)) by congruence.
      injection Heq as -> ->.
      apply String.eqb_neq in Hmt. rewrite Hmt in Hr. cbn [negb] in Hr.
      rewrite Hr. cbn [fst snd trace files].
      repeat split; [exact Hpre | discriminate]. }
  destruct Hcore as (Hq & Hf & Hne & Hg).
  repeat (split; [| try assumption]); try assumption.
  - intros found eng rootfs m o. apply quiet_no_unpack. exact Hq.
  - intros path Hin. unfold quiet in Hq. rewrite List.Forall_forall in Hq.
    specialize (Hq _ Hin). discriminate.
Qed.

Lemma wrong_media_type_stops_witness :
  fst (run (unpackRootfs (Demo.env true Demo.removeAll_ok) (Demo.bundle false true)
             (Demo.ref "{good}" "application/vnd.oci.image.index.v1+json"))
         Demo.populated)
  = Some (errorString
            "error verifying manifest media type: application/vnd.oci.image.index.v1+json")
  /\ files (snd (run (unpackRootfs (Demo.env true Demo.removeAll_ok) (Demo.bundle false true)
                       (Demo.ref "{good}" "application/vnd.oci.image.index.v1+json"))
                   Demo.populated))
     = Demo.populated.
Proof.
  destruct (wrong_media_type_stops (Demo.env true Demo.removeAll_ok) (Demo.bundle false true)
              (Demo.ref "{good}" "application/vnd.oci.image.index.v1+json")
              Demo.populated
              {| GetManifest := inr (Demo.bytes "{good}",
                                     "application/vnd.oci.image.index.v1+json") |}
              (Demo.bytes "{good}") "application/vnd.oci.image.index.v1+json"
              eq_refl eq_refl ltac:(discriminate))
    as (_ & _ & _ & Hf & _ & Hg).
  split; [| exact Hf].
  apply Hg. vm_compute. tauto.
Defined.

(** C4: for a process whose effective IDs are user and group IDs (in the
    range of [uint32]), the block that fills [mapOptions] does not fail;
    unprivileged, it gives rootless = true with exactly one UID descriptor
    (0, effective UID, 1) and one GID descriptor (0, effective GID, 1);
    privileged, it gives rootless = false and two empty lists.  Those are
    the mapping options every call of the unpack capability receives. *)
Theorem map_options_by_privilege env b tmpfsRef fs :
  0 <= os_Geteuid env < 2 ^ 32 ->
  0 <= os_Getegid env < 2 ^ 32 ->
  let expected :=
    if namespaces_IsUnprivileged env then
      {| UIDMappings :=
           [ {| Rspec.ContainerID := 0; Rspec.HostID := os_Geteuid env; Rspec.Size := 1 |} ];
         GIDMappings :=
           [ {| Rspec.ContainerID := 0; Rspec.HostID := os_Getegid env; Rspec.Size := 1 |} ];
         Rootless := true |}
    else {| UIDMappings := []; GIDMappings := []; Rootless := false |} in
  (forall s, fst (resolveMapOptions env s) = inr expected)
  /\ (forall found eng rootfs m o,
        In (call_UnpackRootfs found eng rootfs m o)
           (trace (snd (run (unpackRootfs env b tmpfsRef) fs))) ->
        UnpackMapOptions o = expected).
Proof.
  intros Hu Hg. cbn zeta.
  pose proof (resolveMapOptions_value env Hu Hg) as Hval.
  unfold expectedMapOptions in Hval.
  split.
  - intros s. rewrite resolveMapOptions_run. exact Hval.
  - intros found eng rootfs m o Hin.
    destruct (reaches_extraction env b tmpfsRef fs _ _ _ _ _ Hin)
      as (pre & mapOptions & src & data & _ & Hmap & _ & _ & _ & _ & _ & _ & -> & _).
    cbn [UnpackMapOptions]. congruence.
Qed.

Lemma map_options_by_privilege_witness :
  fst (resolveMapOptions (Demo.env true Demo.removeAll_ok) (start Demo.populated))
  = inr {| UIDMappings :=
             [ {| Rspec.ContainerID := 0; Rspec.HostID := 1000; Rspec.Size := 1 |} ];
           GIDMappings :=
             [ {| Rspec.ContainerID := 0; Rspec.HostID := 100; Rspec.Size := 1 |} ];
           Rootless := true |}.
Proof.
  apply (map_options_by_privilege (Demo.env true Demo.removeAll_ok)
           (Demo.bundle false false) (Demo.ref "{good}" MediaTypeImageManifest)
           Demo.populated);
    cbn; lia.
Defined.

Lemma checkPerms_events env rootfs s :
  trace (snd (checkPerms env rootfs s))
  = (trace s ++ checkPermsEvents env rootfs (files s))%list
  /\ files (snd (checkPerms env rootfs s)) = files s
  /\ fst (checkPerms env rootfs s) = fst (checkPerms env rootfs (start (files s))).
Proof.
  rewrite !checkPerms_run. cbn zeta. unfold checkPermsEvents. cbn [files start].
  destruct (errors_Is_sentinel _); cbn [fst snd extend trace files];
    rewrite ?app_nil_r; repeat split.
Qed.

Lemma postProcess_events env b s :
  trace (snd (postProcess env b s)) = (trace s ++ postEvents env b (files s))%list.
Proof.
  rewrite postProcess_run. unfold postEvents.
  destruct (FixPerms (Opts b)); [reflexivity |].
  destruct (SandboxTarget (Opts b)).
  - destruct (checkPerms_events env (RootfsPath b)
                (extend s [sylog_Debugf "Scanning for restrictive permissions" []]))
      as (-> & _).
    cbn [extend trace files]. rewrite <- app_assoc. reflexivity.
  - cbn [snd]. rewrite app_nil_r. reflexivity.
Qed.

Lemma checkPermsEvents_no_fixperms env rootfs fs ev :
  In ev (checkPermsEvents env rootfs fs) -> is_fixperms ev = false /\ is_unpack ev = false.
Proof.
  unfold checkPermsEvents. cbn zeta. intros [<- | Hin]; [split; reflexivity |].
  apply in_app_or in Hin as [Hin | Hin].
  - pose proof (walkNotes_quiet (fs_entries env fs rootfs)) as Hq.
    rewrite List.Forall_forall in Hq. destruct (Hq _ Hin) as [_ He].
    destruct ev; try discriminate; split; reflexivity.
  - destruct (errors_Is_sentinel _); [| destruct Hin].
    unfold advisory in Hin.
    destruct Hin as [<- | [<- | [<- | []]]]; split; reflexivity.
Qed.

(** C6: after a successful call of the unpack capability, with [FixPerms]
    set (whatever [SandboxTarget] is) the run performs the permission fix
    on the unpacked tree and returns its result, and the scanner's walk is
    never started; with [FixPerms] unset and [SandboxTarget] set it returns
    what [checkPerms] returns on the unpacked tree, without a permission
    fix; with both unset it returns nil and does neither.  In every run, a
    walk of the scanner implies [FixPerms] unset and [SandboxTarget] set. *)
Theorem post_processing_dispatch env b tmpfsRef fs :
  let r := run (unpackRootfs env b tmpfsRef) fs in
  (forall found eng rootfs m o,
     In (call_UnpackRootfs found eng rootfs m o) (trace (snd r)) ->
     snd (umocilayer_UnpackRootfs env found eng rootfs m o) = None ->
     let unpacked := fst (umocilayer_UnpackRootfs env found eng rootfs m o) in
     (FixPerms (Opts b) = true ->
        fst r = snd (sytypes_FixPerms env unpacked (RootfsPath b))
        /\ files (snd r) = fst (sytypes_FixPerms env unpacked (RootfsPath b))
        /\ In (call_FixPerms (RootfsPath b)) (trace (snd r))
        /\ forall ev, In ev (trace (snd r)) -> is_walk ev = false)
     /\ (FixPerms (Opts b) = false -> SandboxTarget (Opts b) = true ->
        fst r = fst (run (checkPerms env (RootfsPath b)) unpacked)
        /\ files (snd r) = unpacked
        /\ In (call_PermWalkRaiseError (RootfsPath b)) (trace (snd r))
        /\ forall ev, In ev (trace (snd r)) -> is_fixperms ev = false)
     /\ (FixPerms (Opts b) = false -> SandboxTarget (Opts b) = false ->
        fst r = None
        /\ files (snd r) = unpacked
        /\ forall ev, In ev (trace (snd r)) ->
             is_walk ev = false /\ is_fixperms ev = false))
  /\ (forall root, In (call_PermWalkRaiseError root) (trace (snd r)) ->
        FixPerms (Opts b) = false /\ SandboxTarget (Opts b) = true).
Proof.
  cbn zeta. split.
  - intros found eng rootfs m o Hin Hok.
    destruct (reaches_extraction env b tmpfsRef fs _ _ _ _ _ Hin)
      as (pre & mapOptions & src & data & Hpre & _ & _ & _ & _ & Hroot & _ & _ & _ & Hr).
    cbn zeta in Hr. rewrite Hok in Hr.
    set (u := umocilayer_UnpackRootfs env found eng rootfs m o) in *.
    set (s1 := {| files := fst u; trace := _ |}) in *.
    assert (Hs1 : forall ev, In ev (trace s1) -> is_walk ev = false /\ is_fixperms ev = false).
    { intros ev Hev. subst s1. cbn [trace] in Hev.
      apply in_app_or in Hev as [Hev | Hev].
      - unfold quiet in Hpre. rewrite List.Forall_forall in Hpre.
        specialize (Hpre _ Hev). destruct ev; try discriminate; split; reflexivity.
      - destruct Hev as [<- | [<- | [<- | []]]]; split; reflexivity. }
    pose proof (postProcess_events env b s1) as Htr.
    rewrite <- Hr in Htr. unfold postEvents in Htr.
    pose proof (f_equal fst Hr) as Hres.
    pose proof (f_equal (fun x => files (snd x)) Hr) as Hfiles.
    cbn beta in Hfiles. rewrite postProcess_run in Hres, Hfiles.
    split; [| split].
    + intros Hfix. rewrite Hfix in *. cbn [fst snd files] in Hres, Hfiles.
      split; [exact Hres | split; [exact Hfiles | split]].
      * rewrite Htr. apply in_or_app. right. cbn. tauto.
      * intros ev Hev. rewrite Htr in Hev.
        apply in_app_or in Hev as [Hev | Hev]; [apply (Hs1 _ Hev) |].
        destruct Hev as [<- | [<- | [<- | []]]]; reflexivity.
    + intros Hfix Hsand. rewrite Hfix, Hsand in *.
      destruct (checkPerms_events env (RootfsPath b)
                  (extend s1 [sylog_Debugf "Scanning for restrictive permissions" []]))
        as (_ & Hcf & Hcr).
      rewrite Hcr in Hres. rewrite Hcf in Hfiles.
      split; [exact Hres | split; [exact Hfiles | split]].
      * rewrite Htr. apply in_or_app. right. right. left. reflexivity.
      * intros ev Hev. rewrite Htr in Hev.
        apply in_app_or in Hev as [Hev | Hev]; [apply (Hs1 _ Hev) |].
        destruct Hev as [<- | Hev]; [reflexivity |].
        apply (checkPermsEvents_no_fixperms _ _ _ _ Hev).
    + intros Hfix Hsand. rewrite Hfix, Hsand in *. cbn [fst snd] in Hres, Hfiles.
      split; [exact Hres | split; [exact Hfiles |]].
      intros ev Hev. rewrite Htr, app_nil_r in Hev. apply (Hs1 _ Hev).
  - intros root Hin.
    destruct (unpackRootfs_run env b tmpfsRef fs)
      as [(Hq & _) | (pre & mapOptions & engineExt & src & data & mt
                      & Hpre & _ & _ & _ & _ & Hr)].
    { unfold quiet in Hq. rewrite List.Forall_forall in Hq.
      specialize (Hq _ Hin). discriminate. }
    assert (Hpre' : ~ In (call_PermWalkRaiseError root) pre).
    { intros Hev. unfold quiet in Hpre. rewrite List.Forall_forall in Hpre.
      specialize (Hpre _ Hev). discriminate. }
    destruct (negb (mt =? MediaTypeImageManifest)%string).
    { rewrite Hr in Hin. cbn [snd trace] in Hin. contradiction. }
    cbn zeta in Hr.
    set (u := umocilayer_UnpackRootfs env _ _ _ _ _) in *.
    set (s1 := {| files := fst u; trace := _ |}) in *.
    assert (Hs1 : ~ In (call_PermWalkRaiseError root) (trace s1)).
    { subst s1. cbn [trace]. intros Hev.
      apply in_app_or in Hev as [Hev | Hev]; [contradiction |].
      destruct Hev as [Hev | [Hev | [Hev | []]]]; discriminate. }
    rewrite Hr in Hin. destruct (snd u); [contradiction |].
    rewrite postProcess_events in Hin. unfold postEvents in Hin.
    apply in_app_or in Hin as [Hin | Hin]; [contradiction |].
    destruct (FixPerms (Opts b)).
    { destruct Hin as [Hin | [Hin | [Hin | []]]]; discriminate. }
    destruct (SandboxTarget (Opts b)); [split; reflexivity | destruct Hin].
Qed.

Lemma post_processing_dispatch_witness :
  fst (run (unpackRootfs (Demo.env true Demo.removeAll_ok) (Demo.bundle true true)
             (Demo.ref "{good}" MediaTypeImageManifest))
         Demo.populated)
  = None
  /\ In (call_FixPerms "/build/rootfs")
        (trace (snd (run (unpackRootfs (Demo.env true Demo.removeAll_ok)
                            (Demo.bundle true true)
                            (Demo.ref "{good}" MediaTypeImageManifest))
                       Demo.populated))).
Proof.
  destruct (post_processing_dispatch (Demo.env true Demo.removeAll_ok)
              (Demo.bundle true true) (Demo.ref "{good}" MediaTypeImageManifest)
              Demo.populated) as [H _].
  destruct (H (fst (Demo.removeAll_ok Demo.populated "/build/rootfs"))
              {| layoutPath := "/build/oci" |} "/build/rootfs"
              (normalize Demo.goodManifest)
              {| UnpackMapOptions := expectedMapOptions true 1000 100 |}
              ltac:(vm_compute; repeat (first [left; reflexivity | right]))
              ltac:(reflexivity))
    as [Hfix _].
  destruct (Hfix eq_refl) as (Hres & _ & Hin & _).
  split; [exact Hres | exact Hin].
Defined.

(** What the code does establish about the removal: in every run that
    reaches the extraction step, [os.RemoveAll] is called on the bundle's rootfs path immediately
    before the unpack capability, nothing of the extraction step comes
    before it, and the capability is applied to the file system that call
    leaves; so whenever the removal returns nil (and does what
    [os.RemoveAll] then promises), nothing at or below the rootfs path is
    there when the capability is called. *)
Theorem removal_precedes_unpack env b tmpfsRef fs found eng rootfs m o :
  let r := run (unpackRootfs env b tmpfsRef) fs in
  In (call_UnpackRootfs found eng rootfs m o) (trace (snd r)) ->
  (exists pre post,
      trace (snd r)
      = (pre ++ call_RemoveAll (RootfsPath b)
             :: call_UnpackRootfs found eng rootfs m o :: post)%list
      /\ Forall (fun ev => is_extraction ev = false) pre)
  /\ rootfs = RootfsPath b
  /\ found = fst (os_RemoveAll env fs (RootfsPath b))
  /\ (removeAll_contract env ->
      snd (os_RemoveAll env fs (RootfsPath b)) = None ->
      forall q, OS.within (RootfsPath b) q = true -> found !! q = None).
Proof.
  cbn zeta. intros Hin.
  destruct (reaches_extraction env b tmpfsRef fs _ _ _ _ _ Hin)
    as (pre & mapOptions & src & data & Hpre & _ & _ & _ & _ & Hroot & _ & Hfound & _ & Hr).
  cbn zeta in Hr.
  set (u := umocilayer_UnpackRootfs env found eng rootfs m o) in *.
  set (s1 := {| files := fst u; trace := _ |}) in *.
  assert (Htr : exists post,
             trace (snd (run (unpackRootfs env b tmpfsRef) fs)) = (trace s1 ++ post)%list).
  { rewrite Hr. destruct (snd u) as [err |].
    - exists []. cbn [snd]. rewrite app_nil_r. reflexivity.
    - destruct (postProcess_tail env b s1) as (post & Hpost & _). eauto. }
  destruct Htr as (post & Htr).
  split; [| split; [exact Hroot | split; [exact Hfound |]]].
  - exists (pre ++ [call_Unmarshal data])%list, post. split.
    + rewrite Htr. subst s1. cbn [trace]. repeat rewrite <- app_assoc. reflexivity.
    + apply Forall_app. split; [exact Hpre | repeat constructor].
  - intros Hcontract Hnil q Hq. rewrite Hfound. apply Hcontract; assumption.
Qed.

Lemma removal_precedes_unpack_witness :
  fst (Demo.removeAll_ok Demo.populated "/build/rootfs") !! "/build/rootfs/etc/keep" = None.
Proof.
  refine (let H := removal_precedes_unpack (Demo.env true Demo.removeAll_ok)
                     (Demo.bundle false false) (Demo.ref "{good}" MediaTypeImageManifest)
                     Demo.populated
                     (fst (Demo.removeAll_ok Demo.populated "/build/rootfs"))
                     {| layoutPath := "/build/oci" |} "/build/rootfs"
                     (normalize Demo.goodManifest)
                     {| UnpackMapOptions := expectedMapOptions true 1000 100 |}
                     ltac:(vm_compute; repeat (first [left; reflexivity | right])) in _).
  destruct H as (_ & _ & _ & H). apply H; [| reflexivity | reflexivity].
  intros fs p _ q Hq. unfold Demo.removeAll_ok. cbn [fst Sources.os_RemoveAll Demo.env].
  apply map_lookup_filter_None. right. intros x _. cbn. congruence.
Defined.

(** The removal is not guaranteed: with a
    sandbox that [os.RemoveAll] may not remove, the unpack capability is
    called all the same, on a file system that still holds the old file,
    and the file is still there at the end. *)
Lemma removal_not_guaranteed_counterexample :
  ~ target_absent_at_unpack (Demo.env true Demo.removeAll_denied)
      (Demo.bundle false false) (Demo.ref "{good}" MediaTypeImageManifest)
      Demo.populated
  /\ files (snd (run (unpackRootfs (Demo.env true Demo.removeAll_denied)
                       (Demo.bundle false false)
                       (Demo.ref "{good}" MediaTypeImageManifest))
                   Demo.populated))
     !! "/build/rootfs/etc/keep"
     = Some (OS.File 420 (Demo.bytes "old")).
Proof.
  split; [| vm_compute; reflexivity].
  intros H.
  specialize (H Demo.populated {| layoutPath := "/build/oci" |} "/build/rootfs"
                (normalize Demo.goodManifest)
                {| UnpackMapOptions := expectedMapOptions true 1000 100 |}
                ltac:(vm_compute; repeat (first [left; reflexivity | right]))
                "/build/rootfs/etc/keep" eq_refl).
  vm_compute in H. discriminate.
Qed.

(** C1, on the code: the error of [json.Unmarshal] is never looked at.
    A run with a decoder that reports errors is the same as the run with
    the decoder's errors silenced; and on the malformed manifest "{" the
    decoder fails, yet the rootfs path is removed, the unpack capability is
    called with the zero manifest (its config media type set) and the run
    returns nil. *)
Theorem decode_error_ignored :
  (forall env b tmpfsRef fs,
     run (unpackRootfs env b tmpfsRef) fs
     = run (unpackRootfs (withSilentDecoder env) b tmpfsRef) fs)
  /\ let env := Demo.env false Demo.removeAll_ok in
     let r := run (unpackRootfs env (Demo.bundle false false)
                     (Demo.ref "{" MediaTypeImageManifest)) Demo.populated in
     snd (json_Unmarshal env (Demo.bytes "{") zeroManifest) <> None
     /\ fst r = None
     /\ In (call_RemoveAll "/build/rootfs") (trace (snd r))
     /\ In (call_UnpackRootfs (fst (Demo.removeAll_ok Demo.populated "/build/rootfs"))
              {| layoutPath := "/build/oci" |} "/build/rootfs"
              (setConfigMediaType MediaTypeImageConfig zeroManifest)
              {| UnpackMapOptions := zeroMapOptions |})
           (trace (snd r))
     /\ files (snd r) !! "/build/rootfs/etc/keep" = None.
Proof.
  split; [reflexivity |].
  cbn zeta. split; [discriminate |].
  split; [vm_compute; reflexivity |].
  split; [vm_compute; repeat (first [left; reflexivity | right]) |].
  split; [vm_compute; repeat (first [left; reflexivity | right]) |].
  vm_compute. reflexivity.
Qed.

(** C8, on the code: the error of [os.RemoveAll] (line 105) is never
    looked at.  A run with a removal that reports errors is the same as the
    run with those errors silenced; and on an earlier sandbox that
    [os.RemoveAll] may not remove, the removal fails, yet the unpack
    capability is called on the file system that still holds the old tree,
    the run returns nil, and the old file is still below the rootfs path
    at the end. *)
Theorem removal_error_ignored :
  (forall env b tmpfsRef fs,
     run (unpackRootfs env b tmpfsRef) fs
     = run (unpackRootfs (Views.withSilentRemoval env) b tmpfsRef) fs)
  /\ let env := Demo.env true Demo.removeAll_denied in
     let r := run (unpackRootfs env (Demo.bundle false false)
                     (Demo.ref "{good}" MediaTypeImageManifest)) Demo.populated in
     Demo.populated !! "/build/rootfs/etc/keep" = Some (OS.File 420 (Demo.bytes "old"))
     /\ OS.within "/build/rootfs" "/build/rootfs/etc/keep" = true
     /\ snd (os_RemoveAll env Demo.populated "/build/rootfs") <> None
     /\ In (call_RemoveAll "/build/rootfs") (trace (snd r))
     /\ In (call_UnpackRootfs Demo.populated {| layoutPath := "/build/oci" |}
              "/build/rootfs" (normalize Demo.goodManifest)
              {| UnpackMapOptions := expectedMapOptions true 1000 100 |})
           (trace (snd r))
     /\ fst r = None
     /\ files (snd r) !! "/build/rootfs/etc/keep"
        = Some (OS.File 420 (Demo.bytes "old")).
Proof.
  split; [reflexivity |].
  cbn zeta.
  split; [vm_compute; reflexivity |].
  split; [vm_compute; reflexivity |].
  split; [discriminate |].
  split; [vm_compute; repeat (first [left; reflexivity | right]) |].
  split; [vm_compute; repeat (first [left; reflexivity | right]) |].
  split; vm_compute; reflexivity.
Qed.

End Pipeline.

(* ===================================================================== *)
(** * The manifest normalizer *)
(* ===================================================================== *)

Module Normalizer.

Import Imgspec Sources.

(** After the first [n] rounds of the loop, the first [n] descriptors are
    rewritten and the others are as they were. *)
Lemma normalize_rounds (layers : list Descriptor) n i :
  foldl normalizeStep layers (seq 0 n) !! i
  = if decide (i < n)%nat then normalizeLayer <$> layers !! i else layers !! i.
Proof.
  revert i. induction n as [| n IH]; intros i.
  - cbn. destruct (decide (i < 0)%nat); [lia | reflexivity].
  - rewrite seq_S, foldl_app. cbn [foldl Nat.add].
    set (cur := foldl normalizeStep layers (seq 0 n)) in *.
    assert (Hn : cur !! n = layers !! n).
    { rewrite IH. destruct (decide (n < n)%nat); [lia | reflexivity]. }
    assert (Hstep : forall g d,
              layers !! n = Some d -> normalizeLayer d = g d ->
              alter g n cur !! i
              = if decide (i < S n)%nat then normalizeLayer <$> layers !! i
                else layers !! i).
    { intros g d Hd Hg. destruct (decide (i = n)) as [-> | Hne].
      - rewrite list_lookup_alter_eq, Hn, Hd. cbn.
        destruct (decide (n < S n)%nat); [| lia]. rewrite Hg. reflexivity.
      - rewrite list_lookup_alter_ne by congruence. rewrite IH.
        destruct (decide (i < n)%nat), (decide (i < S n)%nat); try lia; reflexivity. }
    unfold normalizeStep. rewrite Hn.
    destruct (layers !! n) as [d |] eqn:Hd.
    + destruct (String.eqb (MediaType d) dockerLayerGzip) eqn:Hgz.
      { apply (Hstep _ d eq_refl). unfold normalizeLayer. rewrite Hgz. reflexivity. }
      destruct (String.eqb (MediaType d) dockerLayerTar) eqn:Htar.
      { apply (Hstep _ d eq_refl). unfold normalizeLayer. rewrite Hgz, Htar. reflexivity. }
      rewrite <- (list_alter_id id cur n) by reflexivity.
      apply (Hstep _ d eq_refl). unfold normalizeLayer. rewrite Hgz, Htar. reflexivity.
    + rewrite IH.
      destruct (decide (i < n)%nat), (decide (i < S n)%nat); try lia; try reflexivity.
      assert (i = n) by lia. subst i. rewrite Hd. reflexivity.
Qed.

(** The loop rewrites every descriptor by itself. *)
Lemma normalizeLayers_map layers : normalizeLayers layers = map normalizeLayer layers.
Proof.
  apply list_eq. intros i. unfold normalizeLayers.
  rewrite normalize_rounds, list_lookup_fmap.
  destruct (decide (i < length layers)%nat) as [Hlt | Hge]; [reflexivity |].
  rewrite lookup_ge_None_2 by lia. reflexivity.
Qed.

Lemma normalizeLayer_idem d : normalizeLayer (normalizeLayer d) = normalizeLayer d.
Proof.
  unfold normalizeLayer.
  destruct (String.eqb (MediaType d) dockerLayerGzip) eqn:Hgz; [reflexivity |].
  destruct (String.eqb (MediaType d) dockerLayerTar) eqn:Htar; [reflexivity |].
  rewrite Hgz, Htar. reflexivity.
Qed.

(** C5: normalization gives every layer descriptor that has the Docker
    gzip layer type the OCI gzip layer type, and every one that has the
    Docker tar layer type the OCI tar layer type; descriptors with any
    other media type are returned as they are; digest, size, URLs and
    annotations of every layer, the number and order of the layers, the
    schema version, the manifest's annotations and the other fields of the
    config descriptor are unchanged; the config media type becomes the OCI
    image-config type; and normalizing a second time changes nothing. *)
Theorem normalize_rewrites_and_is_idempotent (m : Manifest) :
  length (Layers (normalize m)) = length (Layers m)
  /\ (forall i d, Layers m !! i = Some d ->
        exists d', Layers (normalize m) !! i = Some d'
          /\ Digest d' = Digest d /\ Size d' = Size d
          /\ URLs d' = URLs d /\ Annotations d' = Annotations d
          /\ (MediaType d = "application/vnd.docker.image.rootfs.diff.tar.gzip" ->
              MediaType d' = "application/vnd.oci.image.layer.v1.tar+gzip")
          /\ (MediaType d = "application/vnd.docker.image.rootfs.diff.tar" ->
              MediaType d' = "application/vnd.oci.image.layer.v1.tar")
          /\ (MediaType d <> "application/vnd.docker.image.rootfs.diff.tar.gzip" ->
              MediaType d <> "application/vnd.docker.image.rootfs.diff.tar" ->
              d' = d))
  /\ MediaType (Config (normalize m)) = "application/vnd.oci.image.config.v1+json"
  /\ Digest (Config (normalize m)) = Digest (Config m)
  /\ Size (Config (normalize m)) = Size (Config m)
  /\ URLs (Config (normalize m)) = URLs (Config m)
  /\ Annotations (Config (normalize m)) = Annotations (Config m)
  /\ SchemaVersion (normalize m) = SchemaVersion m
  /\ ManifestAnnotations (normalize m) = ManifestAnnotations m
  /\ normalize (normalize m) = normalize m.
Proof.
  assert (Hlayers : Layers (normalize m) = map normalizeLayer (Layers m)).
  { unfold normalize. cbn [Layers setLayers setConfigMediaType].
    apply normalizeLayers_map. }
  split; [rewrite Hlayers; apply length_map |].
  split.
  { intros i d Hd. exists (normalizeLayer d). split.
    - rewrite Hlayers. change (map normalizeLayer (Layers m))
        with (normalizeLayer <$> Layers m).
      rewrite list_lookup_fmap, Hd. reflexivity.
    - unfold normalizeLayer, dockerLayerGzip, dockerLayerTar, ociLayerGzip, ociLayerTar.
      destruct (String.eqb_spec (MediaType d)
                  "application/vnd.docker.image.rootfs.diff.tar.gzip") as [Hgz | Hgz].
      { cbn. repeat split; congruence. }
      destruct (String.eqb_spec (MediaType d)
                  "application/vnd.docker.image.rootfs.diff.tar") as [Htar | Htar].
      { cbn. repeat split; congruence. }
      repeat split; congruence. }
  repeat (split; [reflexivity |]).
  unfold normalize, setLayers, setConfigMediaType, setMediaType.
  cbn [Layers Config SchemaVersion ManifestAnnotations
       MediaType Digest Size URLs Annotations].
  f_equal.
  rewrite !normalizeLayers_map.
  change (map normalizeLayer (map normalizeLayer (Layers m)))
    with (normalizeLayer <$> (normalizeLayer <$> Layers m)).
  rewrite <- list_fmap_compose.
  apply list_fmap_ext. intros i d _. apply normalizeLayer_idem.
Qed.

Lemma normalize_rewrites_and_is_idempotent_witness :
  Layers (normalize Demo.goodManifest) !! 0%nat
  = Some {| MediaType := "application/vnd.oci.image.layer.v1.tar+gzip";
            Digest := "sha256:11"; Size := 10; URLs := []; Annotations := [] |}
  /\ normalize (normalize Demo.goodManifest) = normalize Demo.goodManifest.
Proof.
  destruct (normalize_rewrites_and_is_idempotent Demo.goodManifest)
    as (_ & Hl & _ & _ & _ & _ & _ & _ & _ & Hidem).
  split; [| exact Hidem].
  destruct (Hl 0%nat _ eq_refl) as (d' & Hd' & _). rewrite Hd'. f_equal.
  assert (Some d' = Layers (normalize Demo.goodManifest) !! 0%nat) as Heq
    by (symmetry; exact Hd').
  vm_compute in Heq. injection Heq as ->. reflexivity.
Defined.

End Normalizer.

(* ===================================================================== *)
(** * The remote listing *)
(* ===================================================================== *)

Module Listing.

Import Errs Apptainer.

Lemma str_lt_iff a b : str_lt a b = true <-> String_as_OT.lt a b.
Proof.
  unfold str_lt, String_as_OT.lt.
  destruct (String_as_OT.compare a b); split; congruence.
Qed.

Lemma str_lt_irrefl a : str_lt a a = false.
Proof.
  destruct (str_lt a a) eqn:H; [| reflexivity].
  apply str_lt_iff in H. exfalso.
  exact (StrictOrder_Irreflexive (R := String_as_OT.lt) a H).
Qed.

Lemma str_lt_trans a b c : str_lt a b = true -> str_lt b c = true -> str_lt a c = true.
Proof.
  rewrite !str_lt_iff. intros H1 H2. etransitivity; eassumption.
Qed.

Lemma str_trichotomy a b : str_lt a b = true \/ a = b \/ str_lt b a = true.
Proof.
  destruct (String_as_OT.compare_spec a b) as [H | H | H].
  - right. left. exact H.
  - left. apply str_lt_iff. exact H.
  - right. right. apply str_lt_iff. exact H.
Qed.

Lemma ordered_refl a : ordered a a.
Proof. apply str_lt_irrefl. Qed.

Lemma ordered_antisym a b : ordered a b -> ordered b a -> a = b.
Proof.
  unfold ordered. intros Hab Hba.
  destruct (str_trichotomy a b) as [H | [H | H]]; congruence.
Qed.

Lemma ordered_trans a b c : ordered a b -> ordered b c -> ordered a c.
Proof.
  unfold ordered. intros Hab Hbc.
  destruct (str_lt c a) eqn:Hca; [| reflexivity].
  destruct (str_trichotomy a b) as [H | [H | H]].
  - rewrite (str_lt_trans c a b Hca H) in Hbc. discriminate.
  - subst b. congruence.
  - congruence.
Qed.

#[local] Instance ordered_transitive : Transitive ordered.
Proof. intros a b c. apply ordered_trans. Qed.

(** ** Insertion sort *)

Lemma insertSorted_perm lt x l : Permutation (insertSorted lt x l) (x :: l).
Proof.
  induction l as [| y l IH]; cbn [insertSorted]; [reflexivity |].
  destruct (lt x y); [reflexivity |].
  rewrite IH. apply perm_swap.
Qed.

Lemma insertionSort_perm lt l : Permutation (insertionSort lt l) l.
Proof.
  induction l as [| x l IH]; cbn; [reflexivity |].
  fold (insertionSort lt l). rewrite insertSorted_perm, IH. reflexivity.
Qed.

Lemma insertSorted_sorted x l :
  StronglySorted ordered l -> StronglySorted ordered (insertSorted str_lt x l).
Proof.
  induction 1 as [| y l Hl IH Hy]; cbn [insertSorted].
  - repeat constructor.
  - destruct (str_lt x y) eqn:Hxy.
    + assert (Hle : ordered x y).
      { unfold ordered. destruct (str_lt y x) eqn:Hyx; [| reflexivity].
        pose proof (str_lt_trans x y x Hxy Hyx) as Hxx.
        rewrite str_lt_irrefl in Hxx. discriminate. }
      constructor; [constructor; assumption |].
      constructor; [exact Hle |].
      eapply Forall_impl; [exact Hy |]. intros z Hz. cbn beta in Hz.
      eapply ordered_trans; eassumption.
    + constructor; [exact IH |].
      rewrite (insertSorted_perm str_lt x l).
      constructor; [exact Hxy | exact Hy].
Qed.

Lemma insertionSort_sorted l : StronglySorted ordered (insertionSort str_lt l).
Proof.
  induction l as [| x l IH]; cbn; [constructor |].
  apply insertSorted_sorted. exact IH.
Qed.

(** ** A list has one increasing arrangement *)

Lemma sorted_perm_unique l1 : forall l2,
  StronglySorted ordered l1 -> StronglySorted ordered l2 ->
  Permutation l1 l2 -> l1 = l2.
Proof.
  induction l1 as [| a l1 IH]; intros l2 H1 H2 Hp.
  - apply Permutation_nil in Hp. congruence.
  - destruct l2 as [| b l2].
    { apply Permutation_sym, Permutation_nil in Hp. discriminate. }
    apply StronglySorted_inv in H1 as [H1 Ha].
    apply StronglySorted_inv in H2 as [H2 Hb].
    rewrite List.Forall_forall in Ha, Hb.
    assert (Hab : ordered a b).
    { assert (Hin : In b (a :: l1)).
      { eapply Permutation_in; [symmetry; exact Hp | left; reflexivity]. }
      destruct Hin as [<- | Hin]; [apply ordered_refl | apply Ha; exact Hin]. }
    assert (Hba : ordered b a).
    { assert (Hin : In a (b :: l2)).
      { eapply Permutation_in; [exact Hp | left; reflexivity]. }
      destruct Hin as [<- | Hin]; [apply ordered_refl | apply Hb; exact Hin]. }
    pose proof (ordered_antisym a b Hab Hba) as <-.
    f_equal. apply IH; [exact H1 | exact H2 |].
    eapply Permutation_cons_inv. exact Hp.
Qed.

(** Whatever happened to the slice before, [sort.Strings] leaves the
    names in alphabetical order. *)
Lemma sort_after_any (sortStrings : list string -> list string) l l' :
  (forall l, Permutation (sortStrings l) l) ->
  (forall l, Sorted ordered (sortStrings l)) ->
  Permutation l' l ->
  sortStrings l' = alphabetical l.
Proof.
  intros Hperm Hsorted Hl.
  apply sorted_perm_unique.
  - apply Sorted_StronglySorted; [apply ordered_transitive | apply Hsorted].
  - apply insertionSort_sorted.
  - unfold alphabetical. rewrite Hperm, Hl, insertionSort_perm. reflexivity.
Qed.

(** C9: with a [sort.Slice] that permutes the slice and a [sort.Strings]
    that leaves it a permutation in increasing order, the names
    [RemoteList] prints are the keys of the map in alphabetical order,
    however the map was ranged over and whatever the comparator of the
    first sort did: a run that opens and reads its configuration prints the
    title lines and the headings, then one row for each key of the map of
    remotes in increasing bytewise string order, then flushes the table;
    and the whole of [RemoteList] (error, file system, output) is the same
    as without the first sort. *)
Theorem first_sort_has_no_effect (env : Env) :
  (forall less l, Permutation (sort_Slice env less l) l) ->
  (forall l, Permutation (sort_Strings env l) l) ->
  (forall l, Sorted ordered (sort_Strings env l)) ->
  forall c,
    Permutation (rangeKeys env (Remotes c)) (remoteNames c) ->
    sortedNames env c = alphabetical (remoteNames c)
    /\ sortedNames env c = sort_Strings env (rangeKeys env (Remotes c))
    /\ (forall fs usrConfigFile,
          RemoteList env fs usrConfigFile
          = RemoteList (withoutFirstSort env) fs usrConfigFile)
    /\ Permutation (alphabetical (remoteNames c)) (remoteNames c)
    /\ StronglySorted (fun a b => str_lt b a = false) (alphabetical (remoteNames c))
    /\ (forall fs usrConfigFile fs' file c0,
          OS.OpenFile (umask env) fs usrConfigFile
            (Z.lor OS.O_RDONLY OS.O_CREATE) 384 = (fs', inr file) ->
          remote_ReadFrom env file = inr c0 ->
          syncSysConfig env c0 = (c, None) ->
          RemoteList env fs usrConfigFile
          = (None, fs',
             ([ Println "Cloud Services Endpoints"; Println "========================";
               Println "";
               Fprintf_tw ["NAME"; "URI"; "ACTIVE"; "GLOBAL"; "EXCLUSIVE"; "INSECURE"] ]
             ++ map (fun n =>
                       Fprintf_tw
                         [ n; URI (remoteOf c n);
                           (if negb (String.eqb (DefaultRemote c) "")
                               && String.eqb (DefaultRemote c) n
                            then "YES" else "NO");
                           (if System (remoteOf c n) then "YES" else "NO");
                           (if Exclusive (remoteOf c n) then "YES" else "NO");
                           (if Insecure (remoteOf c n) then "YES" else "NO") ])
                    (alphabetical (remoteNames c))
             ++ [tw_Flush])%list)
          /\ Views.rowNames (snd (RemoteList env fs usrConfigFile))
             = "NAME" :: alphabetical (remoteNames c)).
Proof.
  intros Hslice Hperm Hsorted c Hkeys.
  assert (Hnames : forall c', sortedNames env c'
                              = alphabetical (rangeKeys env (Remotes c'))).
  { intros c'. unfold sortedNames.
    apply Listing.sort_after_any; [exact Hperm | exact Hsorted | apply Hslice]. }
  assert (Hsingle : forall c', sortedNames env c'
                               = sort_Strings env (rangeKeys env (Remotes c'))).
  { intros c'. rewrite Hnames. symmetry.
    apply Listing.sort_after_any; [exact Hperm | exact Hsorted | reflexivity]. }
  assert (Hkeysorted : sortedNames env c = alphabetical (remoteNames c)).
  { unfold sortedNames.
    apply Listing.sort_after_any; [exact Hperm | exact Hsorted |].
    rewrite Hslice. exact Hkeys. }
  split; [exact Hkeysorted |].
  split; [apply Hsingle |].
  split.
  { intros fs usrConfigFile. unfold RemoteList.
    cbn [umask remote_ReadFrom syncSysConfig withoutFirstSort].
    destruct (OS.OpenFile _ _ _ _ _) as [fs' [err | file]]; [reflexivity |].
    destruct (remote_ReadFrom env file) as [err | c0]; [reflexivity |].
    destruct (syncSysConfig env c0) as [c1 [err |]]; [reflexivity |].
    rewrite Hsingle. reflexivity. }
  split; [apply Listing.insertionSort_perm |].
  split; [apply Listing.insertionSort_sorted |].
  intros fs usrConfigFile fs' file c0 Hopen Hread Hsync.
  assert (Hrun : RemoteList env fs usrConfigFile
                 = (None, fs', printListing c (alphabetical (remoteNames c)))).
  { unfold RemoteList. rewrite Hopen, Hread, Hsync, Hkeysorted. reflexivity. }
  split; [rewrite Hrun; reflexivity |].
  rewrite Hrun. cbn [snd]. unfold printListing. cbn [app Views.rowNames].
  f_equal. clear Hrun Hkeysorted.
  induction (alphabetical (remoteNames c)) as [| n names IH]; [reflexivity |].
  cbn [map app Views.rowNames row]. f_equal. exact IH.
Qed.

(** The first sort alone would put the system remote first. *)
Example first_sort_alone :
  sort_Slice Demo.listEnv (less Demo.config) (rangeKeys Demo.listEnv Demo.remotes)
  = ["zeta"; "alpha"; "beta"].
Proof. vm_compute. reflexivity. Qed.

Lemma first_sort_has_no_effect_witness :
  Views.rowNames
    (snd (RemoteList Demo.listEnv Views.homeConfigured "/home/u/.apptainer/remote.yaml"))
  = ["NAME"; "alpha"; "beta"; "zeta"].
Proof.
  refine (let H := first_sort_has_no_effect Demo.listEnv
                     (fun less l => Listing.insertionSort_perm less l)
                     (fun l => Listing.insertionSort_perm str_lt l)
                     (fun l => StronglySorted_Sorted (Listing.insertionSort_sorted l))
                     Demo.config (Permutation_refl _) in _).
  destruct H as (_ & _ & _ & _ & _ & H).
  destruct (H Views.homeConfigured "/home/u/.apptainer/remote.yaml"
              Views.homeConfigured
              {| OS.f_name := "/home/u/.apptainer/remote.yaml";
                 OS.f_node := OS.File 384 (Demo.bytes "x") |}
              Demo.config
              ltac:(vm_compute; reflexivity) ltac:(reflexivity) ltac:(reflexivity))
    as [_ Hnames].
  rewrite Hnames. vm_compute. reflexivity.
Defined.

(** ** Opening the configuration file *)

Lemma open_flags : Z.land (Z.lor OS.O_RDONLY OS.O_CREATE) OS.O_CREATE = 64.
Proof. reflexivity. Qed.

(** Under the model of [os.OpenFile], the open-with-create call fails
    with a not-exist error exactly when neither the file nor its parent
    directory is there. *)
Lemma open_create_not_exist u fs name :
  (exists err, snd (OS.OpenFile u fs name (Z.lor OS.O_RDONLY OS.O_CREATE) 384) = inl err
               /\ os_IsNotExist err = true)
  <-> fs !! name = None /\ fs !! OS.Dir name = None.
Proof.
  unfold OS.OpenFile. rewrite open_flags. cbn [Z.eqb].
  split.
  - intros (err & Hopen & Hne).
    destruct (fs !! name) as [[p d | p] |].
    + destruct (Z.land p 256 =? 0); cbn in Hopen; [| discriminate].
      injection Hopen as <-. discriminate.
    + destruct (Z.land p 256 =? 0); cbn in Hopen; [| discriminate].
      injection Hopen as <-. discriminate.
    + split; [reflexivity |].
      destruct (fs !! OS.Dir name) as [[p d | p] |]; [| | reflexivity].
      * cbn in Hopen. injection Hopen as <-. discriminate.
      * destruct (Z.land p 192 =? 192); cbn in Hopen; [discriminate |].
        injection Hopen as <-. discriminate.
  - intros [-> ->]. eexists. split; reflexivity.
Qed.

(** C10: [RemoteList] opens the user configuration file with
    [O_RDONLY|O_CREATE] and mode 0600.  When the file is missing and its
    parent is a directory its owner may write and search, the file is
    created empty, [RemoteList] goes on to read it, and with a
    configuration read from it that has no remotes (and none added from the
    system configuration) it prints the headings and no row, and returns
    nil.  The error "no remote configurations" comes from the open call
    failing with a not-exist error, which under open-with-create means that
    the parent directory is missing as well; a missing file alone does not
    give it. *)
Theorem open_creates_missing_file (env : Env) (fs : OS.FS) (usrConfigFile : string) :
  (forall p,
     fs !! usrConfigFile = None ->
     fs !! OS.Dir usrConfigFile = Some (OS.Directory p) ->
     Z.land p 192 = 192 ->
     let created := OS.File (Z.land 384 (Z.lnot (umask env))) [] in
     let fs' := <[usrConfigFile := created]> fs in
     let file := {| OS.f_name := usrConfigFile; OS.f_node := created |} in
     RemoteList env fs usrConfigFile
     = match remote_ReadFrom env file with
       | inl err => (Some (Errorf_s "while parsing remote config data: " err), fs', [])
       | inr c =>
           match syncSysConfig env c with
           | (_, Some err) => (Some err, fs', [])
           | (c, None) => (None, fs', printListing c (sortedNames env c))
           end
       end
     /\ (remote_ReadFrom env file = inr emptyConfig ->
         syncSysConfig env emptyConfig = (emptyConfig, None) ->
         rangeKeys env ∅ = [] ->
         (forall less, sort_Slice env less [] = []) ->
         sort_Strings env [] = [] ->
         RemoteList env fs usrConfigFile
         = (None, fs',
            [ Println "Cloud Services Endpoints"; Println "========================";
              Println "";
              Fprintf_tw ["NAME"; "URI"; "ACTIVE"; "GLOBAL"; "EXCLUSIVE"; "INSECURE"];
              tw_Flush ])))
  /\ ((forall c err, snd (syncSysConfig env c) = Some err ->
         err <> errorString "no remote configurations") ->
      fst (fst (RemoteList env fs usrConfigFile))
      = Some (errorString "no remote configurations") ->
      (exists err,
          snd (OS.OpenFile (umask env) fs usrConfigFile
                 (Z.lor OS.O_RDONLY OS.O_CREATE) 384) = inl err
          /\ os_IsNotExist err = true)
      /\ fs !! usrConfigFile = None /\ fs !! OS.Dir usrConfigFile = None)
  /\ (fs !! usrConfigFile = None -> fs !! OS.Dir usrConfigFile = None ->
      RemoteList env fs usrConfigFile
      = (Some (errorString "no remote configurations"), fs, [])).
Proof.
  split; [| split].
  - intros p Hfile Hdir Hp. cbn zeta.
    assert (Hrun : RemoteList env fs usrConfigFile
                   = match remote_ReadFrom env
                             {| OS.f_name := usrConfigFile;
                                OS.f_node := OS.File (Z.land 384 (Z.lnot (umask env))) [] |}
                     with
                     | inl err =>
                         (Some (Errorf_s "while parsing remote config data: " err),
                          <[usrConfigFile := OS.File (Z.land 384 (Z.lnot (umask env))) []]> fs,
                          [])
                     | inr c =>
                         match syncSysConfig env c with
                         | (_, Some err) =>
                             (Some err,
                              <[usrConfigFile := OS.File (Z.land 384 (Z.lnot (umask env))) []]> fs,
                              [])
                         | (c, None) =>
                             (None,
                              <[usrConfigFile := OS.File (Z.land 384 (Z.lnot (umask env))) []]> fs,
                              printListing c (sortedNames env c))
                         end
                     end).
    { unfold RemoteList, OS.OpenFile.
      rewrite Hfile, open_flags, Hdir, Hp. cbn [Z.eqb Pos.eqb]. reflexivity. }
    split; [exact Hrun |].
    intros Hread Hsync Hkeys Hslice Hstrings.
    rewrite Hrun, Hread, Hsync.
    unfold sortedNames, emptyConfig. cbn [Remotes].
    rewrite Hkeys, Hslice, Hstrings. reflexivity.
  - intros Hsync Hres.
    assert (Hopen : exists err,
               snd (OS.OpenFile (umask env) fs usrConfigFile
                      (Z.lor OS.O_RDONLY OS.O_CREATE) 384) = inl err
               /\ os_IsNotExist err = true).
    { unfold RemoteList in Hres.
      destruct (OS.OpenFile _ _ _ _ _) as [fs' [err | file]].
      - destruct (os_IsNotExist err) eqn:Hne; [eauto |].
        cbn in Hres. discriminate.
      - destruct (remote_ReadFrom env file) as [err | c]; [cbn in Hres; discriminate |].
        pose proof (Hsync c) as Hc.
        destruct (syncSysConfig env c) as [c' [err |]]; cbn in Hres; [| discriminate].
        exfalso. apply (Hc err eq_refl). congruence. }
    split; [exact Hopen |]. apply (open_create_not_exist (umask env)). exact Hopen.
  - intros Hfile Hdir. unfold RemoteList, OS.OpenFile.
    rewrite Hfile, open_flags, Hdir. reflexivity.
Qed.

Lemma open_creates_missing_file_witness :
  RemoteList Demo.listEnv Demo.home "/home/u/.apptainer/remote.yaml"
  = (None,
     <["/home/u/.apptainer/remote.yaml" := OS.File 384 []]> Demo.home,
     [ Println "Cloud Services Endpoints"; Println "========================";
       Println "";
       Fprintf_tw ["NAME"; "URI"; "ACTIVE"; "GLOBAL"; "EXCLUSIVE"; "INSECURE"];
       tw_Flush ]).
Proof.
  destruct (open_creates_missing_file Demo.listEnv Demo.home
              "/home/u/.apptainer/remote.yaml") as [H _].
  destruct (H 448 ltac:(vm_compute; reflexivity) ltac:(vm_compute; reflexivity) eq_refl)
    as [_ H'].
  apply H'; reflexivity.
Defined.

End Listing.

(* ===================================================================== *)
(** * More on the unpacking pipeline *)
(* ===================================================================== *)

Module PipelineMore.

Import Errs Imgspec Sources SourcesFacts Views.

Lemma setApexLevel_exact env s :
  setApexLevel env s = (tt, extend s [apexlog_SetLevel (apexLevelOf env)]).
Proof.
  unfold setApexLevel, apexLevelOf.
  destruct (_ <=? sylog_ErrorLevel env); [reflexivity |].
  destruct (_ <=? sylog_LogLevel env); [reflexivity |].
  destruct (_ <? sylog_DebugLevel env); reflexivity.
Qed.

Lemma state_eta (s : state) : s = {| files := files s; trace := trace s |}.
Proof. destruct s. reflexivity. Qed.

(** The run of [unpackRootfs] is the one described stage by stage. *)
Lemma run_stages env b tmpfsRef fs :
  run (unpackRootfs env b tmpfsRef) fs = stages env b tmpfsRef fs.
Proof.
  unfold run, unpackRootfs, stages, preamble, bind.
  rewrite setApexLevel_exact. cbv beta iota.
  rewrite Pipeline.resolveMapOptions_run. cbv beta iota zeta.
  unfold emit, ret, on_files, get_files, extend, start. cbn [files trace app fst snd].
  destruct (fst (resolveMapOptions env _)) as [err | mapOptions]; [reflexivity |].
  destruct (umoci_OpenLayout env (TmpDir b)) as [err | engineExt]; [reflexivity |].
  cbn [files trace].
  destruct (NewImageSource tmpfsRef) as [err | imageSource]; [reflexivity |].
  cbn [files trace].
  destruct (GetManifest imageSource) as [err | [manifestData mediaType]]; [reflexivity |].
  destruct (negb (mediaType =? MediaTypeImageManifest)%string); [reflexivity |].
  cbn [files trace].
  destruct (umocilayer_UnpackRootfs env _ _ _ _ _) as [fs' [err |]]; cbn [fst snd].
  - repeat rewrite <- app_assoc. reflexivity.
  - repeat rewrite <- app_assoc. cbn [app].
    match goal with |- postProcess env b ?s = _ => set (s1 := s) end.
    rewrite (surjective_pairing (postProcess env b s1)) at 1.
    rewrite (state_eta (snd (postProcess env b s1))) at 1.
    rewrite Pipeline.postProcess_events.
    subst s1. cbn [trace files app]. repeat rewrite <- app_assoc. reflexivity.
Qed.

(** ** Kinds of events *)

Lemma levelsSet_app a c : levelsSet (a ++ c) = (levelsSet a ++ levelsSet c)%list.
Proof.
  induction a as [| e a IH]; [reflexivity |].
  destruct e; cbn [app levelsSet]; rewrite IH; reflexivity.
Qed.

Lemma manifestsUnpacked_app a c :
  manifestsUnpacked (a ++ c) = (manifestsUnpacked a ++ manifestsUnpacked c)%list.
Proof.
  induction a as [| e a IH]; [reflexivity |].
  destruct e; cbn [app manifestsUnpacked]; rewrite IH; reflexivity.
Qed.

Lemma notes_debug e : Forall (fun ev => is_debug ev = true) (notes e).
Proof.
  unfold notes. destruct e as [path f | path f err]; cbn [walkFn].
  - destruct (OS.IsDir (OS.Mode f) && negb (Z.land (OS.Perm (OS.Mode f)) 448 =? 448));
      cbn; repeat constructor.
  - destruct (os_IsPermission err); cbn; repeat constructor.
Qed.

Lemma walkNotes_debug entries : Forall (fun ev => is_debug ev = true) (walkNotes entries).
Proof.
  induction entries as [| e rest IH]; cbn [walkNotes]; [constructor |].
  destruct (verdict e); [apply notes_debug |].
  apply Forall_app. split; [apply notes_debug | exact IH].
Qed.

Lemma walkNotes_post entries : Forall (fun ev => is_post ev = true) (walkNotes entries).
Proof.
  eapply Forall_impl; [apply walkNotes_debug |].
  intros ev Hd. destruct ev; (reflexivity || discriminate).
Qed.

Lemma postEvents_post env b fs : Forall (fun ev => is_post ev = true) (postEvents env b fs).
Proof.
  unfold postEvents, checkPermsEvents.
  destruct (FixPerms (Opts b)); [repeat constructor |].
  destruct (SandboxTarget (Opts b)); [| constructor].
  repeat constructor. apply Forall_app. split; [apply walkNotes_post |].
  destruct (errors_Is_sentinel _); repeat constructor.
Qed.

Lemma post_levelsSet evs : Forall (fun ev => is_post ev = true) evs -> levelsSet evs = [].
Proof.
  induction 1 as [| ev evs Hev _ IH]; [reflexivity |].
  destruct ev; try discriminate; exact IH.
Qed.

Lemma post_manifests evs :
  Forall (fun ev => is_post ev = true) evs -> manifestsUnpacked evs = [].
Proof.
  induction 1 as [| ev evs Hev _ IH]; [reflexivity |].
  destruct ev; try discriminate; exact IH.
Qed.

Lemma post_filter (p : event -> bool) evs :
  (forall ev, is_post ev = true -> p ev = false) ->
  Forall (fun ev => is_post ev = true) evs -> List.filter p evs = [].
Proof.
  intros Hp. induction 1 as [| ev evs Hev _ IH]; [reflexivity |].
  cbn [List.filter]. rewrite (Hp _ Hev). exact IH.
Qed.

Lemma post_no_unpack ev : is_post ev = true -> is_unpack ev = false.
Proof. destruct ev; (reflexivity || discriminate). Qed.

Lemma post_no_removeAll ev : is_post ev = true -> is_removeAll ev = false.
Proof. destruct ev; (reflexivity || discriminate). Qed.

Lemma preamble_tail env :
  exists dbg, preamble env = apexlog_SetLevel (apexLevelOf env) :: dbg
              /\ Forall (fun ev => is_post ev = true) dbg.
Proof.
  unfold preamble. eexists. split; [reflexivity |].
  destruct (namespaces_IsUnprivileged env); repeat constructor.
Qed.

(** Case analysis on the return statement a run takes. *)
Ltac stage_cases env b tmpfsRef fs :=
  rewrite (run_stages env b tmpfsRef fs); unfold stages;
  destruct (fst (resolveMapOptions env (start ∅))) as [?err | ?mapOptions] eqn:?Hmap;
  [| destruct (umoci_OpenLayout env (TmpDir b)) as [?err | ?engineExt] eqn:?Hopen;
     [| destruct (NewImageSource tmpfsRef) as [?err | ?imageSource] eqn:?Hsrc;
        [| match goal with
           | |- context [GetManifest ?i] =>
               destruct (GetManifest i) as [?err | [?manifestData ?mediaType]] eqn:?Hget
           end;
           [| destruct (negb (String.eqb _ MediaTypeImageManifest)) eqn:?Hmt;
              [| cbv zeta;
                 destruct (umocilayer_UnpackRootfs env _ _ _ _ _)
                   as [?fs' [?err |]] eqn:?Hunpack ]]]]];
  cbn [fst snd files trace].


Lemma levelsSet_run env b tmpfsRef fs :
  levelsSet (trace (snd (run (unpackRootfs env b tmpfsRef) fs))) = [apexLevelOf env].
Proof.
  destruct (preamble_tail env) as (dbg & Hpre & Hdbg).
  pose proof (post_levelsSet _ Hdbg) as Hd.
  pose proof (fun fs' => post_levelsSet _ (postEvents_post env b fs')) as Hp.
  stage_cases env b tmpfsRef fs; rewrite Hpre; cbn [app levelsSet];
    rewrite ?levelsSet_app, ?Hd, ?Hp; reflexivity.
Qed.

(** X2: raising the level of the logger never makes the level given to
    umoci's logger less verbose, whatever the three thresholds are. *)
Theorem apex_level_monotone env b tmpfsRef fs n1 n2 :
  n1 <= n2 ->
  exists l1 l2,
    levelsSet (trace (snd (run (unpackRootfs (withLevel env n1) b tmpfsRef) fs))) = [l1]
    /\ levelsSet (trace (snd (run (unpackRootfs (withLevel env n2) b tmpfsRef) fs))) = [l2]
    /\ (verbosity l1 <= verbosity l2)%nat.
Proof.
  intros Hle. exists (apexLevelOf (withLevel env n1)), (apexLevelOf (withLevel env n2)).
  split; [apply levelsSet_run | split; [apply levelsSet_run |]].
  unfold apexLevelOf, withLevel.
  cbn [sylog_GetLevel sylog_ErrorLevel sylog_LogLevel sylog_DebugLevel].
  destruct (Z.leb_spec n1 (sylog_ErrorLevel env)), (Z.leb_spec n2 (sylog_ErrorLevel env));
    destruct (Z.leb_spec n1 (sylog_LogLevel env)), (Z.leb_spec n2 (sylog_LogLevel env));
    destruct (Z.ltb_spec n1 (sylog_DebugLevel env)), (Z.ltb_spec n2 (sylog_DebugLevel env));
    cbn [verbosity]; lia.
Qed.

Lemma apex_level_monotone_witness :
  exists l1 l2,
    levelsSet (trace (snd (run (unpackRootfs
                                  (withLevel (Demo.env true Demo.removeAll_ok) (-3))
                                  (Demo.bundle false false) refUnreachable)
                             Demo.populated))) = [l1]
    /\ levelsSet (trace (snd (run (unpackRootfs
                                     (withLevel (Demo.env true Demo.removeAll_ok) 5)
                                     (Demo.bundle false false) refUnreachable)
                                Demo.populated))) = [l2]
    /\ (verbosity l1 <= verbosity l2)%nat.
Proof.
  apply (apex_level_monotone (Demo.env true Demo.removeAll_ok) (Demo.bundle false false)
           refUnreachable Demo.populated (-3) 5).
  lia.
Defined.

(** X3: for effective IDs that an [int] holds, the descriptor strings the
    code formats always parse: the block that fills [mapOptions] never
    returns the "error parsing uidmap/gidmap" errors, the host IDs are the
    effective IDs reduced to [uint32], and every run goes on to open the
    layout. *)
Theorem mapping_never_fails env b tmpfsRef fs :
  - 2 ^ 63 <= os_Geteuid env <= 2 ^ 63 - 1 ->
  - 2 ^ 63 <= os_Getegid env <= 2 ^ 63 - 1 ->
  (forall s,
     fst (resolveMapOptions env s)
     = inr (if namespaces_IsUnprivileged env then
              {| UIDMappings :=
                   [ {| Rspec.ContainerID := 0;
                        Rspec.HostID := os_Geteuid env mod 2 ^ 32;
                        Rspec.Size := 1 |} ];
                 GIDMappings :=
                   [ {| Rspec.ContainerID := 0;
                        Rspec.HostID := os_Getegid env mod 2 ^ 32;
                        Rspec.Size := 1 |} ];
                 Rootless := true |}
            else {| UIDMappings := []; GIDMappings := []; Rootless := false |}))
  /\ In (call_OpenLayout (TmpDir b)) (trace (snd (run (unpackRootfs env b tmpfsRef) fs))).
Proof.
  intros Hu Hg.
  assert (Hval : forall s,
            fst (resolveMapOptions env s)
            = inr (if namespaces_IsUnprivileged env then
                     {| UIDMappings :=
                          [ {| Rspec.ContainerID := 0;
                               Rspec.HostID := os_Geteuid env mod 2 ^ 32;
                               Rspec.Size := 1 |} ];
                        GIDMappings :=
                          [ {| Rspec.ContainerID := 0;
                               Rspec.HostID := os_Getegid env mod 2 ^ 32;
                               Rspec.Size := 1 |} ];
                        Rootless := true |}
                   else {| UIDMappings := []; GIDMappings := []; Rootless := false |})).
  { intros s. rewrite Pipeline.resolveMapOptions_run. cbn [fst].
    unfold resolveMapOptions.
    destruct (namespaces_IsUnprivileged env); [| reflexivity].
    unfold bind. rewrite emit_run.
    rewrite !MappingFacts.ParseMapping_mappingSpec
      by (unfold GoStr.int_min, GoStr.int_max; lia).
    reflexivity. }
  split; [exact Hval |].
  pose proof (Hval (start ∅)) as H0.
  stage_cases env b tmpfsRef fs; try congruence;
    repeat rewrite <- app_assoc; apply in_or_app; right; left; reflexivity.
Qed.

Lemma mapping_never_fails_witness :
  fst (resolveMapOptions (envOf 1 (-1) 4294968296 true Demo.unpack_one Demo.entriesOf)
         (start Demo.populated))
  = inr {| UIDMappings :=
             [ {| Rspec.ContainerID := 0; Rspec.HostID := 4294967295; Rspec.Size := 1 |} ];
           GIDMappings :=
             [ {| Rspec.ContainerID := 0; Rspec.HostID := 1000; Rspec.Size := 1 |} ];
           Rootless := true |}.
Proof.
  destruct (mapping_never_fails (envOf 1 (-1) 4294968296 true Demo.unpack_one Demo.entriesOf)
              (Demo.bundle false false) refUnreachable Demo.populated
              ltac:(vm_compute; split; discriminate)
              ltac:(vm_compute; split; discriminate)) as [H _].
  rewrite H. vm_compute. reflexivity.
Defined.

(** X4: when the unpack capability fails, the run returns an error whose
    message is "error unpacking rootfs: " followed by the message of the
    cause, the call of the capability is the last call of the run, neither
    the permission fix nor the scanner is started, and the file system is
    left as the capability left it. *)
Theorem unpack_failure_stops env b tmpfsRef fs found eng rootfs m o cause :
  let r := run (unpackRootfs env b tmpfsRef) fs in
  In (call_UnpackRootfs found eng rootfs m o) (trace (snd r)) ->
  snd (umocilayer_UnpackRootfs env found eng rootfs m o) = Some cause ->
  fst r = Some (errorString ("error unpacking rootfs: " ++ Error cause))
  /\ (exists before,
        trace (snd r) = (before ++ [call_UnpackRootfs found eng rootfs m o])%list)
  /\ (forall ev, In ev (trace (snd r)) -> is_fixperms ev = false /\ is_walk ev = false)
  /\ files (snd r) = fst (umocilayer_UnpackRootfs env found eng rootfs m o).
Proof.
  cbn zeta. intros Hin Hfail.
  destruct (Pipeline.reaches_extraction env b tmpfsRef fs _ _ _ _ _ Hin)
    as (pre & mapOptions & src & data & Hpre & _ & _ & _ & _ & _ & _ & _ & _ & Hr).
  cbn zeta in Hr. rewrite Hfail in Hr. rewrite Hr. cbn [fst snd trace files].
  split; [reflexivity | split; [| split; [| reflexivity]]].
  - exists (pre ++ [call_Unmarshal data; call_RemoveAll (RootfsPath b)])%list.
    rewrite <- app_assoc. reflexivity.
  - intros ev Hev. apply in_app_or in Hev as [Hev | Hev].
    + unfold quiet in Hpre. rewrite List.Forall_forall in Hpre.
      specialize (Hpre _ Hev). destruct ev; try discriminate; split; reflexivity.
    + destruct Hev as [<- | [<- | [<- | []]]]; split; reflexivity.
Qed.

Lemma unpack_failure_stops_witness :
  fst (run (unpackRootfs (envOf 1 1000 100 false unpack_fails Demo.entriesOf)
             (Demo.bundle true true) (Demo.ref "{good}" MediaTypeImageManifest))
         Demo.populated)
  = Some (errorString "error unpacking rootfs: unpack layer: no space left on device").
Proof.
  refine (let H := unpack_failure_stops
                     (envOf 1 1000 100 false unpack_fails Demo.entriesOf)
                     (Demo.bundle true true) (Demo.ref "{good}" MediaTypeImageManifest)
                     Demo.populated
                     (fst (Demo.removeAll_ok Demo.populated "/build/rootfs"))
                     {| layoutPath := "/build/oci" |} "/build/rootfs"
                     (normalize Demo.goodManifest)
                     {| UnpackMapOptions := zeroMapOptions |}
                     (withMessage "unpack layer" (errorString "no space left on device"))
                     ltac:(vm_compute; repeat (first [left; reflexivity | right]))
                     eq_refl in _).
  destruct H as [H _]. exact H.
Defined.

Lemma filter_preamble (p : event -> bool) env :
  (forall ev, is_post ev = true -> p ev = false) ->
  (forall l, p (apexlog_SetLevel l) = false) ->
  List.filter p (preamble env) = [].
Proof.
  intros Hpost Hlevel. destruct (preamble_tail env) as (dbg & -> & Hdbg).
  cbn [List.filter]. rewrite Hlevel. apply post_filter; assumption.
Qed.

(** X5: in a run the unpack capability is called at most once, and the
    rootfs path is removed exactly as often as the capability is called:
    never without a call that follows, never twice. *)
Theorem extraction_at_most_once env b tmpfsRef fs :
  let tr := trace (snd (run (unpackRootfs env b tmpfsRef) fs)) in
  (length (List.filter is_unpack tr) <= 1)%nat
  /\ length (List.filter is_removeAll tr) = length (List.filter is_unpack tr).
Proof.
  cbn zeta.
  pose proof (filter_preamble is_unpack env post_no_unpack (fun _ => eq_refl)) as Hu.
  pose proof (filter_preamble is_removeAll env post_no_removeAll (fun _ => eq_refl)) as Hr.
  pose proof (fun fs' => post_filter is_unpack _ post_no_unpack (postEvents_post env b fs'))
    as Hpu.
  pose proof (fun fs' => post_filter is_removeAll _ post_no_removeAll
                           (postEvents_post env b fs')) as Hpr.
  stage_cases env b tmpfsRef fs;
    rewrite ?List.filter_app, ?Hu, ?Hr, ?Hpu, ?Hpr; cbn; lia.
Qed.

(** X6: a run that returns nil has called the unpack capability on the
    bundle's rootfs path, and that call returned nil. *)
Theorem success_means_unpacked env b tmpfsRef fs :
  fst (run (unpackRootfs env b tmpfsRef) fs) = None ->
  exists found eng m o,
    In (call_UnpackRootfs found eng (RootfsPath b) m o)
       (trace (snd (run (unpackRootfs env b tmpfsRef) fs)))
    /\ snd (umocilayer_UnpackRootfs env found eng (RootfsPath b) m o) = None.
Proof.
  stage_cases env b tmpfsRef fs; try discriminate.
  intros _. do 4 eexists. split.
  - apply in_or_app. left. apply in_or_app. right. right. right. left. reflexivity.
  - rewrite Hunpack. reflexivity.
Qed.

Lemma success_means_unpacked_witness :
  exists found eng m o,
    In (call_UnpackRootfs found eng "/build/rootfs" m o)
       (trace (snd (run (unpackRootfs (Demo.env true Demo.removeAll_ok)
                           (Demo.bundle false true)
                           (Demo.ref "{good}" MediaTypeImageManifest))
                      Demo.populated)))
    /\ snd (umocilayer_UnpackRootfs (Demo.env true Demo.removeAll_ok)
              found eng "/build/rootfs" m o) = None.
Proof.
  apply (success_means_unpacked (Demo.env true Demo.removeAll_ok) (Demo.bundle false true)
           (Demo.ref "{good}" MediaTypeImageManifest) Demo.populated).
  vm_compute. reflexivity.
Defined.

(** X7: a run that never calls [os.RemoveAll] has returned an error and
    has left the file system exactly as it found it. *)
Theorem no_removal_no_change env b tmpfsRef fs :
  (forall path, ~ In (call_RemoveAll path)
                     (trace (snd (run (unpackRootfs env b tmpfsRef) fs)))) ->
  files (snd (run (unpackRootfs env b tmpfsRef) fs)) = fs
  /\ fst (run (unpackRootfs env b tmpfsRef) fs) <> None.
Proof.
  stage_cases env b tmpfsRef fs; intros Hno;
    try (split; [reflexivity | discriminate]);
    exfalso; apply (Hno (RootfsPath b));
    repeat rewrite <- app_assoc; apply in_or_app; right;
    repeat (first [left; reflexivity | right]).
Qed.

Lemma no_removal_no_change_witness :
  files (snd (run (unpackRootfs (Demo.env true Demo.removeAll_ok) (Demo.bundle false true)
                     refUnreachable) Demo.populated))
  = Demo.populated.
Proof.
  apply (no_removal_no_change (Demo.env true Demo.removeAll_ok)
           (Demo.bundle false true) refUnreachable Demo.populated).
  intros path Hin. vm_compute in Hin.
  repeat (destruct Hin as [Hin | Hin]; [discriminate |]). exact Hin.
Defined.

Lemma normalizeLayer_not_docker d : is_docker (normalizeLayer d) = false.
Proof.
  unfold is_docker, normalizeLayer.
  destruct (String.eqb (MediaType d) dockerLayerGzip) eqn:Hgz; [reflexivity |].
  destruct (String.eqb (MediaType d) dockerLayerTar) eqn:Htar; [reflexivity |].
  rewrite Hgz, Htar. reflexivity.
Qed.

Lemma normalize_layers_eq m : Layers (normalize m) = map normalizeLayer (Layers m).
Proof.
  unfold normalize. cbn [Layers setLayers setConfigMediaType].
  apply Normalizer.normalizeLayers_map.
Qed.

Lemma normalize_again m : normalize (normalize m) = normalize m.
Proof.
  unfold normalize, setLayers, setConfigMediaType, setMediaType.
  cbn [Layers Config SchemaVersion ManifestAnnotations
       MediaType Digest Size URLs Annotations].
  f_equal. rewrite !Normalizer.normalizeLayers_map.
  change (map normalizeLayer (map normalizeLayer (Layers m)))
    with (normalizeLayer <$> (normalizeLayer <$> Layers m)).
  rewrite <- list_fmap_compose.
  apply list_fmap_ext. intros i d _. apply Normalizer.normalizeLayer_idem.
Qed.

(** X8: whatever the decoder produced, the only manifest a run gives to
    the unpack capability has the OCI image-config type as its config media
    type, has no layer with either Docker layer type, has as many layers as
    the decoder produced, and is left as it is by another normalization. *)
Theorem unpacked_manifest_is_normalized env b tmpfsRef fs found eng rootfs m o :
  In (call_UnpackRootfs found eng rootfs m o)
     (trace (snd (run (unpackRootfs env b tmpfsRef) fs))) ->
  MediaType (Config m) = "application/vnd.oci.image.config.v1+json"
  /\ Forall (fun d =>
               MediaType d <> "application/vnd.docker.image.rootfs.diff.tar.gzip"
               /\ MediaType d <> "application/vnd.docker.image.rootfs.diff.tar")
            (Layers m)
  /\ normalize m = m
  /\ manifestsUnpacked (trace (snd (run (unpackRootfs env b tmpfsRef) fs))) = [m]
  /\ exists manifestData,
       In (call_Unmarshal manifestData) (trace (snd (run (unpackRootfs env b tmpfsRef) fs)))
       /\ length (Layers m)
          = length (Layers (fst (json_Unmarshal env manifestData zeroManifest))).
Proof.
  intros Hin.
  destruct (Pipeline.reaches_extraction env b tmpfsRef fs _ _ _ _ _ Hin)
    as (pre & mapOptions & src & data & Hpre & _ & _ & _ & _ & _ & Hm & _ & _ & Hr).
  cbn zeta in Hr.
  assert (Hpre_m : manifestsUnpacked pre = []).
  { clear - Hpre. induction Hpre as [| ev evs Hev _ IH]; [reflexivity |].
    destruct ev; try discriminate; exact IH. }
  assert (Htr : exists post,
             trace (snd (run (unpackRootfs env b tmpfsRef) fs))
             = ((pre ++ [call_Unmarshal data; call_RemoveAll (RootfsPath b);
                         call_UnpackRootfs found eng rootfs m o]) ++ post)%list
             /\ manifestsUnpacked post = []).
  { rewrite Hr. destruct (snd (umocilayer_UnpackRootfs env found eng rootfs m o)).
    - exists []. cbn [snd trace]. rewrite app_nil_r. split; reflexivity.
    - rewrite Pipeline.postProcess_events. cbn [trace files]. eexists. split; [reflexivity |].
      apply post_manifests, postEvents_post. }
  destruct Htr as (post & Htr & Hpost).
  subst m. split; [reflexivity | split; [| split; [apply normalize_again | split]]].
  - rewrite normalize_layers_eq. apply Forall_forall. intros d Hd.
    apply list_elem_of_In, in_map_iff in Hd as (d0 & <- & _).
    pose proof (normalizeLayer_not_docker d0) as Hnd. unfold is_docker in Hnd.
    apply orb_false_elim in Hnd as [Hgz Htar].
    apply String.eqb_neq in Hgz, Htar. split; assumption.
  - rewrite Htr, !manifestsUnpacked_app, Hpre_m, Hpost. reflexivity.
  - exists data. split.
    + rewrite Htr. apply in_or_app. left. apply in_or_app. right. left. reflexivity.
    + rewrite normalize_layers_eq. apply length_map.
Qed.

Lemma unpacked_manifest_is_normalized_witness :
  manifestsUnpacked
    (trace (snd (run (unpackRootfs (Demo.env true Demo.removeAll_ok) (Demo.bundle false false)
                        (Demo.ref "{good}" MediaTypeImageManifest))
                   Demo.populated)))
  = [normalize Demo.goodManifest].
Proof.
  refine (let H := unpacked_manifest_is_normalized (Demo.env true Demo.removeAll_ok)
                     (Demo.bundle false false) (Demo.ref "{good}" MediaTypeImageManifest)
                     Demo.populated
                     (fst (Demo.removeAll_ok Demo.populated "/build/rootfs"))
                     {| layoutPath := "/build/oci" |} "/build/rootfs"
                     (normalize Demo.goodManifest)
                     {| UnpackMapOptions := expectedMapOptions true 1000 100 |}
                     ltac:(vm_compute; repeat (first [left; reflexivity | right])) in _).
  destruct H as (_ & _ & _ & H & _). exact H.
Defined.

Lemma resolve_error_flat env err :
  fst (resolveMapOptions env (start ∅)) = inl err ->
  exists msg, err = errorString ("error " ++ msg).
Proof.
  unfold resolveMapOptions.
  destruct (namespaces_IsUnprivileged env); [| discriminate].
  unfold bind. rewrite emit_run.
  destruct (Idtools.ParseMapping (mappingSpec (os_Geteuid env))) as [e |].
  { intros [= <-]. eexists. reflexivity. }
  destruct (Idtools.ParseMapping (mappingSpec (os_Getegid env))) as [e |]; [| discriminate].
  intros [= <-]. eexists. reflexivity.
Qed.

(** X9: the permission-violation sentinel never leaves [unpackRootfs]:
    provided the permission fix does not itself return it, no run returns
    an error whose chain contains the sentinel. *)
Theorem sentinel_never_leaves env b tmpfsRef fs :
  (forall fs' path err, snd (sytypes_FixPerms env fs' path) = Some err ->
     Is_errRestrictivePerm err = false) ->
  errors_Is_sentinel (fst (run (unpackRootfs env b tmpfsRef) fs)) = false.
Proof.
  intros Hfix.
  stage_cases env b tmpfsRef fs; try reflexivity.
  - destruct (resolve_error_flat env _ Hmap) as (msg & ->). reflexivity.
  - rewrite Pipeline.postProcess_run.
    destruct (FixPerms (Opts b)).
    + cbn [fst files].
      destruct (snd (sytypes_FixPerms env fs' (RootfsPath b))) as [err |] eqn:He;
        [| reflexivity].
      cbn [errors_Is_sentinel]. eapply Hfix. exact He.
    + destruct (SandboxTarget (Opts b)); [| reflexivity].
      rewrite checkPerms_run. cbn zeta.
      destruct (errors_Is_sentinel (walkVerdict _)) eqn:Hs; [reflexivity |].
      cbn [fst]. exact Hs.
Qed.

Lemma sentinel_never_leaves_witness :
  errors_Is_sentinel
    (fst (run (unpackRootfs (Demo.env true Demo.removeAll_ok) (Demo.bundle false true)
                 (Demo.ref "{good}" MediaTypeImageManifest)) Demo.populated))
  = false.
Proof.
  apply (sentinel_never_leaves (Demo.env true Demo.removeAll_ok) (Demo.bundle false true)
           (Demo.ref "{good}" MediaTypeImageManifest) Demo.populated).
  intros fs' path err H. cbn in H. discriminate.
Defined.

Lemma preamble_debug env :
  exists dbg, preamble env = apexlog_SetLevel (apexLevelOf env) :: dbg
              /\ Forall (fun ev => is_debug ev = true) dbg.
Proof.
  unfold preamble. eexists. split; [reflexivity |].
  destruct (namespaces_IsUnprivileged env); repeat constructor.
Qed.

Lemma preamble_lacks (p : event -> bool) env ev :
  (forall e, is_debug e = true -> p e = false) ->
  (forall l, p (apexlog_SetLevel l) = false) ->
  p ev = true -> ~ In ev (preamble env).
Proof.
  intros Hd Hl Hev Hin. destruct (preamble_debug env) as (dbg & Hpre & Hdbg).
  rewrite Hpre in Hin. destruct Hin as [<- | Hin].
  - rewrite Hl in Hev. discriminate.
  - rewrite List.Forall_forall in Hdbg. rewrite (Hd _ (Hdbg _ Hin)) in Hev. discriminate.
Qed.

Lemma filter_preamble_debug (p : event -> bool) env :
  (forall e, is_debug e = true -> p e = false) ->
  (forall l, p (apexlog_SetLevel l) = false) ->
  List.filter p (preamble env) = [].
Proof.
  intros Hd Hl. destruct (preamble_debug env) as (dbg & -> & Hdbg).
  cbn [List.filter]. rewrite Hl. clear - Hd Hdbg.
  induction Hdbg as [| ev evs Hev _ IH]; [reflexivity |].
  cbn [List.filter]. rewrite (Hd _ Hev). exact IH.
Qed.

Lemma debug_not_unpack e : is_debug e = true -> is_unpack e = false.
Proof. destruct e; (reflexivity || discriminate). Qed.

Lemma debug_not_warning e : is_debug e = true -> is_warning e = false.
Proof. destruct e; (reflexivity || discriminate). Qed.

(** A run in which the unpack capability is called, with its whole trace. *)
Lemma extraction_exact env b tmpfsRef fs found eng rootfs m o :
  In (call_UnpackRootfs found eng rootfs m o)
     (trace (snd (run (unpackRootfs env b tmpfsRef) fs))) ->
  exists src data,
    umoci_OpenLayout env (TmpDir b) = inr eng
    /\ NewImageSource tmpfsRef = inr src
    /\ GetManifest src = inr (data, MediaTypeImageManifest)
    /\ rootfs = RootfsPath b
    /\ let u := umocilayer_UnpackRootfs env found eng rootfs m o in
       let t1 := (preamble env
                  ++ [ call_OpenLayout (TmpDir b); call_NewImageSource; call_GetManifest;
                       call_Unmarshal data; call_RemoveAll (RootfsPath b);
                       call_UnpackRootfs found eng rootfs m o ])%list in
       let s1 := {| files := fst u; trace := t1 |} in
       run (unpackRootfs env b tmpfsRef) fs
       = match snd u with
         | Some err => (Some (Errorf_s "error unpacking rootfs: " err), s1)
         | None =>
             (fst (postProcess env b s1),
              {| files := files (snd (postProcess env b s1));
                 trace := t1 ++ postEvents env b (fst u) |})
         end.
Proof.
  assert (Hpre : ~ In (call_UnpackRootfs found eng rootfs m o) (preamble env)).
  { apply (preamble_lacks is_unpack); [apply debug_not_unpack | reflexivity | reflexivity]. }
  assert (Hpost : forall fs', ~ In (call_UnpackRootfs found eng rootfs m o)
                                   (postEvents env b fs')).
  { intros fs' Hin. pose proof (postEvents_post env b fs') as Hp.
    rewrite List.Forall_forall in Hp. specialize (Hp _ Hin). discriminate. }
  stage_cases env b tmpfsRef fs; intros Hin;
    repeat rewrite <- app_assoc in Hin; cbn [app] in Hin;
    try (exfalso; exact (Hpre Hin));
    try (exfalso; apply in_app_or in Hin as [Hin | Hin]; [exact (Hpre Hin) |];
         repeat (destruct Hin as [Hin | Hin]; [discriminate |]); exact Hin).
  - apply in_app_or in Hin as [Hin | Hin]; [exfalso; exact (Hpre Hin) |].
    do 5 (destruct Hin as [Hin | Hin]; [discriminate |]).
    destruct Hin as [Hin | []]. injection Hin as <- <- <- <- <-.
    apply negb_false_iff, String.eqb_eq in Hmt. subst mediaType.
    exists imageSource, manifestData. repeat (split; [assumption || reflexivity |]).
    cbn zeta. rewrite Hunpack. cbn [fst snd].
    repeat rewrite <- app_assoc. reflexivity.
  - apply in_app_or in Hin as [Hin | Hin]; [exfalso; exact (Hpre Hin) |].
    do 5 (destruct Hin as [Hin | Hin]; [discriminate |]).
    destruct Hin as [Hin | Hin]; [| exfalso; exact (Hpost _ Hin)].
    injection Hin as <- <- <- <- <-.
    apply negb_false_iff, String.eqb_eq in Hmt. subst mediaType.
    exists imageSource, manifestData. repeat (split; [assumption || reflexivity |]).
    cbn zeta. rewrite Hunpack. cbn [fst snd].
    repeat rewrite <- app_assoc. reflexivity.
Qed.

(** X10: a sandbox build is not failed by a permission violation: when
    the unpack capability succeeded, [FixPerms] is unset, [SandboxTarget]
    is set and the walk of the unpacked tree ends with the sentinel, the
    run returns nil, the warnings of the whole run are exactly the three
    advisory ones, which end the trace, and the unpacked tree is left as it
    is. *)
Theorem violation_does_not_fail_build env b tmpfsRef fs found eng rootfs m o :
  let r := run (unpackRootfs env b tmpfsRef) fs in
  let unpacked := fst (umocilayer_UnpackRootfs env found eng rootfs m o) in
  In (call_UnpackRootfs found eng rootfs m o) (trace (snd r)) ->
  snd (umocilayer_UnpackRootfs env found eng rootfs m o) = None ->
  FixPerms (Opts b) = false ->
  SandboxTarget (Opts b) = true ->
  fst (run (PermWalkRaiseError env (RootfsPath b) walkFn) unpacked)
  = Some errRestrictivePerm ->
  fst r = None
  /\ List.filter is_warning (trace (snd r)) = advisory
  /\ (exists before, trace (snd r) = (before ++ advisory)%list)
  /\ files (snd r) = unpacked.
Proof.
  cbn zeta. intros Hin Hok Hfix Hsand Hwalk.
  unfold run in Hwalk. rewrite PermissionScanner.PermWalkRaiseError_run in Hwalk.
  cbn [fst files start] in Hwalk.
  destruct (extraction_exact env b tmpfsRef fs _ _ _ _ _ Hin)
    as (src & data & _ & _ & _ & _ & Hr).
  cbn zeta in Hr. rewrite Hok in Hr. rewrite Hr.
  rewrite Pipeline.postProcess_run, Hfix, Hsand, checkPerms_run.
  unfold postEvents, checkPermsEvents. rewrite Hfix, Hsand.
  cbn zeta. cbn [extend files]. rewrite Hwalk.
  cbn [errors_Is_sentinel Is_errRestrictivePerm fst snd trace files].
  split; [reflexivity | split; [| split; [| reflexivity]]].
  - rewrite !List.filter_app.
    rewrite (filter_preamble_debug is_warning env debug_not_warning (fun _ => eq_refl)).
    cbn [List.filter is_warning app]. rewrite List.filter_app.
    rewrite (PermissionScanner.filter_quiet _ (walkNotes_quiet _)). reflexivity.
  - match goal with
    | |- exists before, (?A ++ ?d :: ?w :: ?N ++ advisory)%list = _ =>
        exists (A ++ d :: w :: N)%list
    end.
    rewrite <- (app_assoc _ _ advisory). reflexivity.
Qed.

Lemma violation_does_not_fail_build_witness :
  fst (run (unpackRootfs (Demo.env true Demo.removeAll_ok) (Demo.bundle false true)
             (Demo.ref "{good}" MediaTypeImageManifest)) Demo.populated)
  = None
  /\ List.filter is_warning
       (trace (snd (run (unpackRootfs (Demo.env true Demo.removeAll_ok)
                           (Demo.bundle false true)
                           (Demo.ref "{good}" MediaTypeImageManifest)) Demo.populated)))
     = advisory.
Proof.
  refine (let H := violation_does_not_fail_build (Demo.env true Demo.removeAll_ok)
                     (Demo.bundle false true) (Demo.ref "{good}" MediaTypeImageManifest)
                     Demo.populated
                     (fst (Demo.removeAll_ok Demo.populated "/build/rootfs"))
                     {| layoutPath := "/build/oci" |} "/build/rootfs"
                     (normalize Demo.goodManifest)
                     {| UnpackMapOptions := expectedMapOptions true 1000 100 |}
                     ltac:(vm_compute; repeat (first [left; reflexivity | right]))
                     eq_refl eq_refl eq_refl ltac:(vm_compute; reflexivity) in _).
  destruct H as (H1 & H2 & _). split; [exact H1 | exact H2].
Defined.

(** X11: an error returned before post-processing (no permission fix and
    no scan has started) is a new error value without a cause to unwrap,
    and its message starts with "error ". *)
Theorem early_errors_are_flat env b tmpfsRef fs err :
  let r := run (unpackRootfs env b tmpfsRef) fs in
  fst r = Some err ->
  (forall ev, In ev (trace (snd r)) -> is_fixperms ev = false /\ is_walk ev = false) ->
  exists msg, err = errorString ("error " ++ msg).
Proof.
  cbn zeta.
  stage_cases env b tmpfsRef fs; intros Herr Hno;
    try (injection Herr as <-; eexists; reflexivity).
  - injection Herr as <-. eapply resolve_error_flat. exact Hmap.
  - exfalso. unfold postEvents in Hno.
    rewrite Pipeline.postProcess_run in Herr.
    destruct (FixPerms (Opts b)).
    + destruct (Hno (call_FixPerms (RootfsPath b))) as [Hf _]; [| discriminate].
      apply in_or_app. right. right. right. left. reflexivity.
    + destruct (SandboxTarget (Opts b)); [| discriminate].
      destruct (Hno (call_PermWalkRaiseError (RootfsPath b))) as [_ Hw]; [| discriminate].
      apply in_or_app. right. right. left. reflexivity.
Qed.

Lemma early_errors_are_flat_witness :
  exists msg,
    errorString "error creating image source: dial tcp: connection refused"
    = errorString ("error " ++ msg).
Proof.
  apply (early_errors_are_flat (Demo.env true Demo.removeAll_ok) (Demo.bundle true true)
           refUnreachable Demo.populated).
  - vm_compute. reflexivity.
  - intros ev Hin. vm_compute in Hin.
    repeat (destruct Hin as [<- | Hin]; [split; reflexivity |]). destruct Hin.
Defined.

(** X12: each stage is attempted only after the one before succeeded: the
    image source is created only with an opened layout, the manifest is
    fetched only from a created source, and the manifest is decoded only
    when it was fetched with the OCI image-manifest type. *)
Theorem stages_in_order env b tmpfsRef fs :
  let tr := trace (snd (run (unpackRootfs env b tmpfsRef) fs)) in
  (In call_NewImageSource tr ->
     exists eng, umoci_OpenLayout env (TmpDir b) = inr eng
                 /\ In (call_OpenLayout (TmpDir b)) tr)
  /\ (In call_GetManifest tr ->
        exists src, NewImageSource tmpfsRef = inr src /\ In call_NewImageSource tr)
  /\ (forall data, In (call_Unmarshal data) tr ->
        exists src, NewImageSource tmpfsRef = inr src
                    /\ GetManifest src = inr (data, MediaTypeImageManifest)
                    /\ In call_GetManifest tr).
Proof.
  cbn zeta.
  assert (Hpre : forall ev,
            In ev (preamble env) -> is_debug ev = true \/ exists l, ev = apexlog_SetLevel l).
  { intros ev Hin. destruct (preamble_debug env) as (dbg & Heq & Hdbg).
    rewrite Heq in Hin. destruct Hin as [<- | Hin]; [right; eauto | left].
    rewrite List.Forall_forall in Hdbg. exact (Hdbg _ Hin). }
  assert (Hpost : forall fs' ev, In ev (postEvents env b fs') -> is_post ev = true).
  { intros fs' ev Hin. pose proof (postEvents_post env b fs') as Hp.
    rewrite List.Forall_forall in Hp. exact (Hp _ Hin). }
  stage_cases env b tmpfsRef fs; repeat rewrite <- app_assoc; cbn [app];
    (split; [intros Hin | split; [intros Hin | intros data Hin]]);
    try (destruct (Hpre _ Hin) as [Hd | [l Hd]]; discriminate);
    apply in_app_or in Hin as [Hin | Hin];
    try (destruct (Hpre _ Hin) as [Hd | [l Hd]]; discriminate);
    repeat (destruct Hin as [Hin | Hin]; [try discriminate |]);
    try (destruct Hin; fail);
    try (apply Hpost in Hin; discriminate);
    try (injection Hin as <-);
    try (apply negb_false_iff, String.eqb_eq in Hmt; subst mediaType);
    eexists; repeat (split; [first [reflexivity | eassumption] |]);
    apply in_or_app; right; repeat (first [left; reflexivity | right]).
Qed.

Lemma stages_in_order_witness :
  exists src,
    NewImageSource (Demo.ref "{good}" MediaTypeImageManifest) = inr src
    /\ GetManifest src = inr (Demo.bytes "{good}", MediaTypeImageManifest)
    /\ In call_GetManifest
          (trace (snd (run (unpackRootfs (Demo.env true Demo.removeAll_ok)
                              (Demo.bundle false false)
                              (Demo.ref "{good}" MediaTypeImageManifest))
                         Demo.populated))).
Proof.
  destruct (stages_in_order (Demo.env true Demo.removeAll_ok) (Demo.bundle false false)
              (Demo.ref "{good}" MediaTypeImageManifest) Demo.populated) as (_ & _ & H).
  apply (H (Demo.bytes "{good}")).
  vm_compute. repeat (first [left; reflexivity | right]).
Defined.

End PipelineMore.

(* ===================================================================== *)
(** * More on the permission scanner *)
(* ===================================================================== *)

Module ScannerMore.

Import Errs Sources SourcesFacts Views.

Lemma verdict_Accessible path f :
  verdict (Accessible path f)
  = if Z.testbit (OS.Mode f) 31
       && negb (Z.testbit (OS.Mode f) 8 && Z.testbit (OS.Mode f) 7 && Z.testbit (OS.Mode f) 6)
    then Some errRestrictivePerm else None.
Proof.
  unfold verdict. cbn [walkFn].
  rewrite OSFacts.IsDir_testbit, OSFacts.owner_rwx_testbit.
  destruct (_ && _); reflexivity.
Qed.

Lemma notes_Accessible_ok path f :
  verdict (Accessible path f) = None -> notes (Accessible path f) = [].
Proof.
  unfold verdict, notes. cbn [walkFn].
  destruct (_ && _); [discriminate | reflexivity].
Qed.

(** X13: on a tree in which every entry can be examined and every
    directory gives its owner read, write and execute, [checkPerms]
    returns nil, logs nothing at all (no warning, no debug message) and
    leaves the file system alone. *)
Theorem clean_tree_is_silent env rootfs fs :
  Forall (fun e => exists path f,
            e = Accessible path f
            /\ (Z.testbit (OS.Mode f) 31 = true ->
                Z.testbit (OS.Mode f) 8 = true /\ Z.testbit (OS.Mode f) 7 = true
                /\ Z.testbit (OS.Mode f) 6 = true))
         (fs_entries env fs rootfs) ->
  run (checkPerms env rootfs) fs
  = (None, {| files := fs; trace := [call_PermWalkRaiseError rootfs] |}).
Proof.
  intros Hclean. unfold run. rewrite checkPerms_run. cbn zeta. cbn [files start].
  assert (Hv : walkVerdict (fs_entries env fs rootfs) = None
               /\ walkNotes (fs_entries env fs rootfs) = []).
  { induction Hclean as [| e rest (path & f & -> & Hf) _ [IHv IHn]]; [split; reflexivity |].
    assert (He : verdict (Accessible path f) = None).
    { rewrite verdict_Accessible.
      destruct (Z.testbit (OS.Mode f) 31); [| reflexivity].
      destruct (Hf eq_refl) as (-> & -> & ->). reflexivity. }
    cbn [walkVerdict walkNotes]. rewrite He, IHv, IHn, (notes_Accessible_ok _ _ He).
    split; reflexivity. }
  destruct Hv as [-> ->]. reflexivity.
Qed.

Lemma clean_tree_is_silent_witness :
  run (checkPerms (envOf 1 1000 100 true Demo.unpack_one entriesClean) "/build/rootfs")
      Demo.populated
  = (None, {| files := Demo.populated;
              trace := [call_PermWalkRaiseError "/build/rootfs"] |}).
Proof.
  apply (clean_tree_is_silent (envOf 1 1000 100 true Demo.unpack_one entriesClean)).
  repeat constructor; eexists; eexists; (split; [reflexivity |]);
    intros H; vm_compute in H; try discriminate; repeat split.
Defined.

(** With the walker as the specification describes it (a walker that
    has no error of its own), [checkPerms] never changes the file system,
    and the only error it ever returns is the one for an entry of the walk whose access
    failed for a reason other than permission, naming that entry's path and
    cause. *)
Theorem checkPerms_result_shape env rootfs fs :
  let r := run (checkPerms env rootfs) fs in
  files (snd r) = fs
  /\ (fst r = None
      \/ exists path f err,
           In (Failed path f err) (fs_entries env fs rootfs)
           /\ os_IsPermission err = false
           /\ fst r = Some (errorString
                              ("unable to access rootfs path " ++ path ++ ": " ++ Error err))).
Proof.
  cbn zeta. unfold run. rewrite checkPerms_run. cbn zeta. cbn [files start].
  set (entries := fs_entries env fs rootfs).
  assert (Hv : walkVerdict entries = None
               \/ walkVerdict entries = Some errRestrictivePerm
               \/ exists path f err,
                    In (Failed path f err) entries /\ os_IsPermission err = false
                    /\ walkVerdict entries
                       = Some (errorString ("unable to access rootfs path " ++ path
                                            ++ ": " ++ Error err))).
  { induction entries as [| e rest IH]; [left; reflexivity |].
    cbn [walkVerdict]. destruct (verdict e) as [v |] eqn:He.
    - destruct e as [path f | path f err]; unfold verdict in He; cbn [walkFn] in He.
      + destruct (_ && _); cbn in He; [| discriminate].
        injection He as <-. right. left. reflexivity.
      + destruct (os_IsPermission err) eqn:Hp; cbn in He; injection He as <-.
        * right. left. reflexivity.
        * right. right. exists path, f, err. repeat split; [left; reflexivity | exact Hp].
    - destruct IH as [IH | [IH | (path & f & err & Hin & Hp & IH)]];
        [left; exact IH | right; left; exact IH |].
      right. right. exists path, f, err. repeat split; [right; exact Hin | exact Hp | exact IH]. }
  destruct Hv as [-> | [-> | (path & f & err & Hin & Hp & ->)]]; cbn;
    (split; [reflexivity |]); [left; reflexivity | left; reflexivity |].
  right. exists path, f, err. repeat split; assumption.
Qed.

(** X15: for an entry that can be examined the walk function looks at
    four bits of the mode only, the directory bit and the owner's read,
    write and execute bits: two entries whose modes agree on them get the
    same answer, whatever their paths, names and other mode bits. *)
Theorem verdict_reads_four_bits s s' path path' f f' :
  Z.testbit (OS.Mode f) 31 = Z.testbit (OS.Mode f') 31 ->
  Z.testbit (OS.Mode f) 8 = Z.testbit (OS.Mode f') 8 ->
  Z.testbit (OS.Mode f) 7 = Z.testbit (OS.Mode f') 7 ->
  Z.testbit (OS.Mode f) 6 = Z.testbit (OS.Mode f') 6 ->
  fst (walkFn (Accessible path f) s) = fst (walkFn (Accessible path' f') s').
Proof.
  intros H31 H8 H7 H6. rewrite !walkFn_run. cbn [fst].
  rewrite !verdict_Accessible, H31, H8, H7, H6. reflexivity.
Qed.

Lemma verdict_reads_four_bits_witness :
  fst (walkFn (Accessible "/a" {| OS.Name := "a"; OS.Mode := Z.lor OS.ModeDir 448 |})
         (start Demo.populated))
  = fst (walkFn (Accessible "/b/c" {| OS.Name := "c"; OS.Mode := Z.lor OS.ModeDir 1023 |})
           (start ∅)).
Proof.
  apply verdict_reads_four_bits; vm_compute; reflexivity.
Defined.

Lemma walk_outcomes entries :
  (walkVerdict entries = Some errRestrictivePerm
   /\ exists path,
        walkNotes entries = [sylog_Debugf "Path %q has restrictive permissions" [path]]
        /\ exists e, In e entries
                     /\ (e = Accessible path (match e with
                                              | Accessible _ f => f
                                              | Failed _ _ _ => {| OS.Name := ""; OS.Mode := 0 |}
                                              end)
                         \/ exists f err, e = Failed path f err))
  \/ (errors_Is_sentinel (walkVerdict entries) = false /\ walkNotes entries = []).
Proof.
  induction entries as [| e rest IH]; [right; split; reflexivity |].
  cbn [walkVerdict walkNotes].
  destruct e as [path f | path f err]; unfold verdict, notes; cbn [walkFn].
  - destruct (_ && _); cbn [fst snd bind emit ret trace start app].
    + left. split; [reflexivity |]. exists path. split; [reflexivity |].
      exists (Accessible path f). split; [left; reflexivity | left; reflexivity].
    + destruct IH as [(Hv & path' & Hn & e & Hin & He) | (Hv & Hn)].
      * left. split; [exact Hv |]. exists path'. split; [exact Hn |].
        exists e. split; [right; exact Hin | exact He].
      * right. split; [exact Hv | exact Hn].
  - destruct (os_IsPermission err); cbn [fst snd bind emit ret trace start app].
    + left. split; [reflexivity |]. exists path. split; [reflexivity |].
      exists (Failed path f err). split; [left; reflexivity | right; eauto].
    + right. split; reflexivity.
Qed.

(** X16: [checkPerms] names at most one offending path, the path of an
    entry of the walk, in a debug message, and it does so exactly when it
    also prints the three warnings and returns nil; in every other run it
    logs neither a debug message nor a warning. *)
Theorem one_offender_is_named env rootfs fs :
  let r := run (checkPerms env rootfs) fs in
  (fst r = None
   /\ List.filter is_warning (trace (snd r)) = advisory
   /\ exists path,
        List.filter is_debug (trace (snd r))
        = [sylog_Debugf "Path %q has restrictive permissions" [path]]
        /\ exists e, In e (fs_entries env fs rootfs)
                     /\ match e with
                        | Accessible p _ | Failed p _ _ => p = path
                        end)
  \/ trace (snd r) = [call_PermWalkRaiseError rootfs].
Proof.
  cbn zeta. unfold run. rewrite checkPerms_run. cbn zeta. cbn [files start].
  destruct (walk_outcomes (fs_entries env fs rootfs))
    as [(Hv & path & Hn & e & Hin & He) | (Hv & Hn)].
  - left. rewrite Hv, Hn. cbn. split; [reflexivity | split; [reflexivity |]].
    exists path. split; [reflexivity |]. exists e. split; [exact Hin |].
    destruct He as [He | (f & err & He)]; rewrite He; reflexivity.
  - right. rewrite Hv, Hn. reflexivity.
Qed.

End ScannerMore.

(* ===================================================================== *)
(** * More on the normalizer *)
(* ===================================================================== *)

Module NormalizerMore.

Import Imgspec Sources Views.

Lemma normalizeLayer_fixed d : normalizeLayer d = d <-> is_docker d = false.
Proof.
  split.
  - intros H. rewrite <- H. unfold is_docker, normalizeLayer.
    destruct (String.eqb (MediaType d) dockerLayerGzip) eqn:Hgz; [reflexivity |].
    destruct (String.eqb (MediaType d) dockerLayerTar) eqn:Htar; [reflexivity |].
    rewrite Hgz, Htar. reflexivity.
  - unfold is_docker, normalizeLayer. intros H.
    apply orb_false_elim in H as [-> ->]. reflexivity.
Qed.

Lemma map_fixed (layers : list Descriptor) :
  map normalizeLayer layers = layers <-> Forall (fun d => is_docker d = false) layers.
Proof.
  induction layers as [| d layers IH]; cbn [map].
  - split; [constructor | reflexivity].
  - split.
    + intros [= Hd Hl]. constructor; [apply normalizeLayer_fixed, Hd | apply IH, Hl].
    + intros H. apply Forall_cons in H as [Hd Hl]. f_equal; [apply normalizeLayer_fixed, Hd | apply IH, Hl].
Qed.

(** X17: the manifests normalization leaves as they are, are exactly
    those whose config media type is the OCI image-config type and that
    have no layer with one of the two Docker layer types. *)
Theorem normalize_fixed_points (m : Manifest) :
  normalize m = m
  <-> MediaType (Config m) = "application/vnd.oci.image.config.v1+json"
      /\ Forall (fun d =>
                   MediaType d <> "application/vnd.docker.image.rootfs.diff.tar.gzip"
                   /\ MediaType d <> "application/vnd.docker.image.rootfs.diff.tar")
                (Layers m).
Proof.
  assert (Hdock : forall d,
            is_docker d = false
            <-> MediaType d <> "application/vnd.docker.image.rootfs.diff.tar.gzip"
                /\ MediaType d <> "application/vnd.docker.image.rootfs.diff.tar").
  { intros d. unfold is_docker, dockerLayerGzip, dockerLayerTar. split.
    - intros H. apply orb_false_elim in H as [H1 H2].
      apply String.eqb_neq in H1, H2. split; assumption.
    - intros [H1 H2]. apply String.eqb_neq in H1, H2. rewrite H1, H2. reflexivity. }
  assert (Hlayers : Layers (normalize m) = map normalizeLayer (Layers m)).
  { unfold normalize. cbn [Layers setLayers setConfigMediaType].
    apply Normalizer.normalizeLayers_map. }
  split.
  - intros Hfix. split.
    + rewrite <- Hfix. reflexivity.
    + rewrite Hfix in Hlayers. symmetry in Hlayers.
      apply map_fixed in Hlayers.
      eapply Forall_impl; [exact Hlayers |]. intros d Hd. apply Hdock. exact Hd.
  - intros [Hcfg Hl].
    assert (Hmap : map normalizeLayer (Layers m) = Layers m).
    { apply map_fixed. eapply Forall_impl; [exact Hl |]. intros d Hd. apply Hdock. exact Hd. }
    destruct m as [sv [mt dg sz urls ann] layers mann].
    cbn [Config MediaType Layers] in *. subst mt.
    unfold normalize, setLayers, setConfigMediaType, setMediaType.
    cbn [Layers Config SchemaVersion ManifestAnnotations
         MediaType Digest Size URLs Annotations].
    rewrite Normalizer.normalizeLayers_map, Hmap. reflexivity.
Qed.

Lemma normalize_fixed_points_witness :
  normalize (normalize Demo.goodManifest) = normalize Demo.goodManifest.
Proof.
  apply (normalize_fixed_points (normalize Demo.goodManifest)).
  split; [reflexivity |].
  vm_compute. repeat constructor; discriminate.
Defined.

(** X18: the loop treats every layer by itself: normalizing the layers of
    two lists put together gives the two normalized lists put together. *)
Theorem normalizeLayers_app (l1 l2 : list Descriptor) :
  normalizeLayers (l1 ++ l2) = (normalizeLayers l1 ++ normalizeLayers l2)%list.
Proof.
  rewrite !Normalizer.normalizeLayers_map. apply map_app.
Qed.

End NormalizerMore.

(* ===================================================================== *)
(** * More on the remote listing *)
(* ===================================================================== *)

Module ListingMore.

Import Errs Apptainer Views.

(** X19: [RemoteList] prints nothing when it returns an error, and when
    it returns nil it has printed the three title lines and the column
    headings, then one row for each name of the sorted list, then flushed
    the table. *)
Theorem errors_print_nothing env fs usrConfigFile :
  let r := RemoteList env fs usrConfigFile in
  (fst (fst r) <> None -> snd r = [])
  /\ (fst (fst r) = None ->
      exists c,
        snd r
        = ([ Println "Cloud Services Endpoints"; Println "========================";
             Println "";
             Fprintf_tw ["NAME"; "URI"; "ACTIVE"; "GLOBAL"; "EXCLUSIVE"; "INSECURE"] ]
           ++ map (row c) (sortedNames env c) ++ [tw_Flush])%list
        /\ length (snd r) = (5 + length (sortedNames env c))%nat).
Proof.
  cbn zeta. unfold RemoteList.
  destruct (OS.OpenFile _ _ _ _ _) as [fs' [err | file]].
  - destruct (os_IsNotExist err); cbn [fst snd]; split; (reflexivity || discriminate).
  - destruct (remote_ReadFrom env file) as [err | c];
      [cbn [fst snd]; split; (reflexivity || discriminate) |].
    destruct (syncSysConfig env c) as [c' [err |]]; cbn [fst snd];
      [split; (reflexivity || discriminate) |].
    split; [congruence |]. intros _. exists c'. split; [reflexivity |].
    unfold printListing. rewrite !length_app, length_map. cbn [length]. lia.
Qed.

Lemma errors_print_nothing_witness :
  snd (RemoteList Demo.listEnv ∅ "/home/u/.apptainer/remote.yaml") = [].
Proof.
  destruct (errors_print_nothing Demo.listEnv ∅ "/home/u/.apptainer/remote.yaml")
    as [H _].
  apply H. vm_compute. discriminate.
Defined.

(** X20: the only change [RemoteList] ever makes to the file system is to
    create its configuration file: every other path is as before, an
    existing configuration file (or a directory in its place) is left
    exactly as it is, and a file that is created is empty with mode
    0600 less the umask. *)
Theorem only_config_file_touched env fs usrConfigFile :
  let fs' := snd (fst (RemoteList env fs usrConfigFile)) in
  (forall q, q <> usrConfigFile -> fs' !! q = fs !! q)
  /\ (fs !! usrConfigFile <> None -> fs' = fs)
  /\ (fs' = fs
      \/ fs !! usrConfigFile = None
         /\ fs' !! usrConfigFile
            = Some (OS.File (Z.land 384 (Z.lnot (umask env))) [])).
Proof.
  cbn zeta.
  assert (Hopen : fst (OS.OpenFile (umask env) fs usrConfigFile
                         (Z.lor OS.O_RDONLY OS.O_CREATE) 384)
                  = snd (fst (RemoteList env fs usrConfigFile))).
  { unfold RemoteList.
    destruct (OS.OpenFile _ _ _ _ _) as [fs' [err | file]]; cbn [fst snd].
    - destruct (os_IsNotExist err); reflexivity.
    - destruct (remote_ReadFrom env file) as [err | c]; [reflexivity |].
      destruct (syncSysConfig env c) as [c' [err |]]; reflexivity. }
  rewrite <- Hopen. unfold OS.OpenFile. rewrite Listing.open_flags. cbn [Z.eqb].
  destruct (fs !! usrConfigFile) as [[p d | p] |] eqn:Hfile.
  - destruct (Z.land p 256 =? 0); cbn [fst];
      (split; [reflexivity | split; [reflexivity | left; reflexivity]]).
  - destruct (Z.land p 256 =? 0); cbn [fst];
      (split; [reflexivity | split; [reflexivity | left; reflexivity]]).
  - destruct (fs !! OS.Dir usrConfigFile) as [[p d | p] |]; cbn [fst];
      try (split; [reflexivity | split; [congruence | left; reflexivity]]).
    destruct (Z.land p 192 =? 192); cbn [fst];
      try (split; [reflexivity | split; [congruence | left; reflexivity]]).
    split; [| split; [congruence | right; split; [reflexivity | apply lookup_insert_eq]]].
    intros q Hq. apply lookup_insert_ne. congruence.
Qed.

Lemma only_config_file_touched_witness :
  snd (fst (RemoteList Demo.listEnv homeConfigured "/home/u/.apptainer/remote.yaml"))
  = homeConfigured.
Proof.
  destruct (only_config_file_touched Demo.listEnv homeConfigured
              "/home/u/.apptainer/remote.yaml") as (_ & H & _).
  apply H. vm_compute. discriminate.
Defined.

(** X21: with a [sort.Slice] and a [sort.Strings] that permute the slice,
    and a [range] that yields every key once, the sorted list of names has
    every configured remote exactly once and nothing else, so a listing has
    exactly one row for each configured remote. *)
Theorem one_row_per_remote env c :
  (forall less l, Permutation (sort_Slice env less l) l) ->
  (forall l, Permutation (sort_Strings env l) l) ->
  Permutation (rangeKeys env (Remotes c)) (remoteNames c) ->
  NoDup (sortedNames env c)
  /\ (forall n, n ∈ sortedNames env c <-> is_Some (Remotes c !! n))
  /\ length (printListing c (sortedNames env c)) = (5 + size (Remotes c))%nat.
Proof.
  intros Hslice Hstrings Hkeys.
  assert (Hperm : Permutation (sortedNames env c) (remoteNames c)).
  { unfold sortedNames. rewrite Hstrings, Hslice. exact Hkeys. }
  split; [| split].
  - rewrite Hperm. apply NoDup_fst_map_to_list.
  - intros n. rewrite Hperm. unfold remoteNames.
    rewrite list_elem_of_fmap. split.
    + intros ([k v] & -> & Hin). apply elem_of_map_to_list in Hin. cbn. eauto.
    + intros [v Hv]. exists (n, v). split; [reflexivity |].
      apply elem_of_map_to_list. exact Hv.
  - unfold printListing. rewrite !length_app, length_map. cbn [length].
    rewrite Hperm. unfold remoteNames. rewrite length_fmap, length_map_to_list. lia.
Qed.

Lemma one_row_per_remote_witness :
  length (printListing Demo.config (sortedNames Demo.listEnv Demo.config)) = 8%nat.
Proof.
  destruct (one_row_per_remote Demo.listEnv Demo.config
              (fun less l => Listing.insertionSort_perm less l)
              (fun l => Listing.insertionSort_perm str_lt l)
              (Permutation_refl _)) as (_ & _ & H).
  rewrite H. vm_compute. reflexivity.
Defined.

Lemma active_row c n :
  is_active_row (row c n)
  = negb (String.eqb (DefaultRemote c) "") && String.eqb (DefaultRemote c) n.
Proof.
  unfold row, is_active_row, yesNo.
  destruct (negb (String.eqb (DefaultRemote c) "") && String.eqb (DefaultRemote c) n);
    reflexivity.
Qed.

Lemma active_rows_none c names :
  DefaultRemote c = "" \/ DefaultRemote c ∉ names ->
  List.filter is_active_row (map (row c) names) = [].
Proof.
  intros H. induction names as [| n names IH]; [reflexivity |].
  cbn [map List.filter]. rewrite active_row.
  assert (Hn : negb (String.eqb (DefaultRemote c) "") && String.eqb (DefaultRemote c) n
               = false).
  { destruct H as [-> | H]; [reflexivity |].
    destruct (String.eqb_spec (DefaultRemote c) n) as [Heq | _]; [| apply andb_false_r].
    exfalso. apply H. rewrite Heq. left. }
  rewrite Hn. apply IH. destruct H as [H | H]; [left; exact H | right].
  intros Hin. apply H. right. exact Hin.
Qed.

(** X22: in a listing of names without repetition at most one row is
    marked active, and one is exactly when the default remote is not the
    empty name and is among the names; that row is the default remote's. *)
Theorem at_most_one_active c names :
  NoDup names ->
  (DefaultRemote c <> "" /\ DefaultRemote c ∈ names ->
     List.filter is_active_row (printListing c names) = [row c (DefaultRemote c)])
  /\ (DefaultRemote c = "" \/ DefaultRemote c ∉ names ->
        List.filter is_active_row (printListing c names) = []).
Proof.
  intros Hnd.
  assert (Hrows : List.filter is_active_row (printListing c names)
                  = List.filter is_active_row (map (row c) names)).
  { unfold printListing. rewrite !List.filter_app. cbn [List.filter is_active_row].
    cbn [String.eqb Ascii.eqb Bool.eqb]. rewrite app_nil_r. reflexivity. }
  rewrite Hrows. clear Hrows. split; [| apply active_rows_none].
  intros [Hne Hin].
  induction Hnd as [| n names Hn Hnd IH]; [inversion Hin |].
  cbn [map List.filter]. rewrite active_row.
  apply String.eqb_neq in Hne. rewrite Hne. cbn [negb andb].
  destruct (String.eqb_spec (DefaultRemote c) n) as [Heq | Hneq].
  - rewrite <- Heq in *. f_equal. apply active_rows_none. right. exact Hn.
  - apply IH. apply elem_of_cons in Hin as [Hin | Hin]; [contradiction | exact Hin].
Qed.

Lemma at_most_one_active_witness :
  List.filter is_active_row (printListing Demo.config ["alpha"; "beta"; "zeta"])
  = [row Demo.config "beta"].
Proof.
  destruct (at_most_one_active Demo.config ["alpha"; "beta"; "zeta"]) as [H _].
  - repeat (constructor; [rewrite ?elem_of_cons, elem_of_nil; intros H; 
                          repeat destruct H as [H | H]; try discriminate; exact H |]).
    constructor.
  - apply H. split; [discriminate |]. right. left.
Defined.

(** X23: the comparator given to [sort.Slice] is a strict order on names
    that is total on different names and puts every system remote before
    every remote that is not one: it is irreflexive, asymmetric and
    transitive, two different names are always related one way, and
    within each of the two groups it is the order of the names. *)
Theorem less_is_strict_order c :
  (forall a, less c a a = false)
  /\ (forall a b, less c a b = true -> less c b a = false)
  /\ (forall a b d, less c a b = true -> less c b d = true -> less c a d = true)
  /\ (forall a b, a <> b -> less c a b = true \/ less c b a = true)
  /\ (forall a b, System (remoteOf c a) = true -> System (remoteOf c b) = false ->
        less c a b = true)
  /\ (forall a b, System (remoteOf c a) = System (remoteOf c b) ->
        less c a b = str_lt a b).
Proof.
  unfold less. repeat split.
  - intros a. destruct (System (remoteOf c a)); cbn; apply Listing.str_lt_irrefl.
  - intros a b.
    destruct (System (remoteOf c a)), (System (remoteOf c b)); cbn;
      try discriminate; try reflexivity;
      intros Hab; destruct (str_lt b a) eqn:Hba; try reflexivity;
      pose proof (Listing.str_lt_trans a b a Hab Hba) as Haa;
      rewrite Listing.str_lt_irrefl in Haa; discriminate.
  - intros a b d.
    destruct (System (remoteOf c a)), (System (remoteOf c b)), (System (remoteOf c d));
      cbn; try discriminate; try reflexivity; apply Listing.str_lt_trans.
  - intros a b Hne.
    destruct (System (remoteOf c a)), (System (remoteOf c b)); cbn;
      try (left; reflexivity); try (right; reflexivity);
      destruct (Listing.str_trichotomy a b) as [H | [H | H]];
      [left; exact H | contradiction | right; exact H
      | left; exact H | contradiction | right; exact H].
  - intros a b -> ->. reflexivity.
  - intros a b ->. destruct (System (remoteOf c b)); reflexivity.
Qed.

Lemma less_is_strict_order_witness :
  less Demo.config "zeta" "alpha" = true /\ less Demo.config "alpha" "zeta" = false.
Proof.
  destruct (less_is_strict_order Demo.config) as (_ & Hasym & _ & _ & Hsys & _).
  assert (H : less Demo.config "zeta" "alpha" = true)
    by (apply Hsys; vm_compute; reflexivity).
  split; [exact H | apply Hasym; exact H].
Defined.



End ListingMore.
